(** * websocketnats: the connection registry and the gateway dispatcher

    A shallow embedding of the Go package [websocketnats] (a WebSocket
    gateway in front of a NATS bus) and the properties of its session
    registry, login procedure, reaper and subscribe procedure.

    Conventions of the embedding.
    - A [*Connection] is a pointer [ConnPtr] into a store of [Connection]
      records; the three registry maps hold pointers, so a [Close] or a
      [Login] on a connection is seen through every map that holds it.
    - [int64] and [int] values are integers of [Z] with the two's
      complement wrap-around written out ([wrap64]).
    - [[]byte] messages and Go strings are [string]s.
    - What the process does to the outside (frames written to a socket,
      sockets closed, bus leases and subscriptions, fatal log lines) is
      appended to the [wire] of the process state.
    - [time.Now()] is an explicit argument [now] (Unix seconds).
    - A Go panic and [os.Exit] are the outcomes [Panic] and [Exit]. *)

From Stdlib Require Import ZArith Lia String Ascii List.
From stdpp Require Import gmap strings list fin_maps functions.

Local Open Scope Z_scope.
Local Open Scope string_scope.

(** ** Machine integers *)

Definition wrap64 (z : Z) : Z := (z + 2 ^ 63) mod 2 ^ 64 - 2 ^ 63.

(** ** connection.go *)

Abbreviation ConnPtr := nat (only parsing).
Abbreviation ConnectionID := Z (only parsing).
Abbreviation UserID := string (only parsing).
Abbreviation DeviceID := string (only parsing).

(** The [ws], [dataMutex] and [writeMutex] fields are the socket and two
    locks; what is done to the socket is recorded on the wire. *)
Record Connection := mkConnection {
  id : ConnectionID;
  userID : UserID;
  deviceID : DeviceID;
  startTime : Z;
  lastMessageAt : Z
}.

(** gorilla/websocket message types and close codes. *)
Definition TextMessage : Z := 1.
Definition BinaryMessage : Z := 2.
Definition CloseMessage : Z := 8.
Definition CloseNormalClosure : Z := 1000.
Definition CloseGoingAway : Z := 1001.
Definition ClosePolicyViolation : Z := 1008.
Definition CloseInternalServerErr : Z := 1011.

(** The payload of a written frame: raw bytes, or the result of
    [websocket.FormatCloseMessage code reason]. *)
Inductive Payload :=
| Bytes (data : string)
| FormatCloseMessage (closeCode : Z) (text : string).

Abbreviation BusClient := nat (only parsing).

Inductive Event :=
| WriteMessage (c : ConnPtr) (messageType : Z) (data : Payload)
| WsClose (c : ConnPtr)
| SetReadLimit (c : ConnPtr) (limit : Z)
| PoolGet (lease : nat)
| Subscribe (busClient : BusClient) (topic : string) (c : ConnPtr)
| LogFatalf (format : string).

Abbreviation Store := (ConnPtr -> Connection) (only parsing).

Definition NewConnection (now : Z) (id0 : ConnectionID) : Connection :=
  {| id := id0; userID := ""; deviceID := ""; startTime := now;
     lastMessageAt := 0 |}.

Definition IsLoggedIn (h : Store) (c : ConnPtr) : bool :=
  negb (String.eqb (userID (h c)) "").

Definition GetInfo (h : Store) (c : ConnPtr)
  : ConnectionID * UserID * DeviceID :=
  (id (h c), userID (h c), deviceID (h c)).

Definition GetStartTime (h : Store) (c : ConnPtr) : Z := startTime (h c).

(** [IsClosed] calls itself on the same receiver and does nothing else;
    [fuel] bounds the depth of the calls, [None] is "no value yet". *)
Fixpoint IsClosed (fuel : nat) (h : Store) (c : ConnPtr) : option bool :=
  match fuel with
  | O => None
  | S fuel' => IsClosed fuel' h c
  end.

(** ** connections storage *)

Record ConnectionsStats := mkStats {
  NumberOfUsers : Z;
  NumberOfDevices : Z;
  NumberOfNotLoggedConnections : Z
}.

Record ConnectionsStorage := mkStorage {
  connectionsByID : gmap Z nat;
  connectionsByUserID : gmap string (gmap string nat);
  connectionsByDeviceID : gmap string nat;
  numberOfNotLoggedConnections : Z
}.

Definition NewConnectionsStorage : ConnectionsStorage :=
  {| connectionsByID := ∅; connectionsByUserID := ∅;
     connectionsByDeviceID := ∅; numberOfNotLoggedConnections := 0 |}.

Definition AddNewConnection (h : Store) (s : ConnectionsStorage)
    (connection : ConnPtr) : ConnectionsStorage :=
  {| connectionsByID := <[id (h connection) := connection]> (connectionsByID s);
     connectionsByUserID := connectionsByUserID s;
     connectionsByDeviceID := connectionsByDeviceID s;
     numberOfNotLoggedConnections :=
       wrap64 (numberOfNotLoggedConnections s + 1) |}.

Definition removeConnection (h : Store) (s : ConnectionsStorage)
    (connection : ConnPtr) : ConnectionsStorage :=
  let '(connectionID, userID0, deviceID0) := GetInfo h connection in
  match connectionsByID s !! connectionID with
  | None => s
  | Some _ =>
    let byID := delete connectionID (connectionsByID s) in
    if String.eqb userID0 "" then
      {| connectionsByID := byID;
         connectionsByUserID := connectionsByUserID s;
         connectionsByDeviceID := connectionsByDeviceID s;
         numberOfNotLoggedConnections :=
           wrap64 (numberOfNotLoggedConnections s - 1) |}
    else
      let byUser :=
        match connectionsByUserID s !! userID0 with
        | None => connectionsByUserID s
        | Some userConnections =>
          let userConnections' := delete deviceID0 userConnections in
          if (size userConnections' =? 0)%nat
          then delete userID0 (connectionsByUserID s)
          else <[userID0 := userConnections']> (connectionsByUserID s)
        end in
      let byDevice :=
        match connectionsByDeviceID s !! deviceID0 with
        | None => connectionsByDeviceID s
        | Some _ => delete deviceID0 (connectionsByDeviceID s)
        end in
      {| connectionsByID := byID;
         connectionsByUserID := byUser;
         connectionsByDeviceID := byDevice;
         numberOfNotLoggedConnections := numberOfNotLoggedConnections s |}
  end.

Definition RemoveConnection := removeConnection.

(** [OnLogin] returns the storage and [deviceConnectionBefore]
    ([None] is Go's [nil]). *)
Definition OnLogin (h : Store) (s : ConnectionsStorage)
    (connection : ConnPtr) : ConnectionsStorage * option ConnPtr :=
  let '(_, userID0, deviceID0) := GetInfo h connection in
  if String.eqb userID0 "" then (s, None)
  else
    let s1 :=
      {| connectionsByID := connectionsByID s;
         connectionsByUserID := connectionsByUserID s;
         connectionsByDeviceID := connectionsByDeviceID s;
         numberOfNotLoggedConnections :=
           wrap64 (numberOfNotLoggedConnections s - 1) |} in
    let deviceConnectionBefore :=
      connectionsByDeviceID s1 !! deviceID (h connection) in
    let s2 :=
      match deviceConnectionBefore with
      | Some before => removeConnection h s1 before
      | None => s1
      end in
    let byDevice := <[deviceID0 := connection]> (connectionsByDeviceID s2) in
    let userConnections :=
      match connectionsByUserID s2 !! userID0 with
      | None => ∅
      | Some userConnections => userConnections
      end in
    ({| connectionsByID := connectionsByID s2;
        connectionsByUserID :=
          <[userID0 := <[deviceID0 := connection]> userConnections]>
            (connectionsByUserID s2);
        connectionsByDeviceID := byDevice;
        numberOfNotLoggedConnections := numberOfNotLoggedConnections s2 |},
     deviceConnectionBefore).

Definition GetUserConnections (s : ConnectionsStorage) (u : UserID)
  : option (gmap string nat) := connectionsByUserID s !! u.

Definition GetDeviceConnection (s : ConnectionsStorage) (d : DeviceID)
  : option ConnPtr := connectionsByDeviceID s !! d.

Definition GetConnectionByID (s : ConnectionsStorage) (i : ConnectionID)
  : option ConnPtr := connectionsByID s !! i.

Definition GetStats (s : ConnectionsStorage) : ConnectionsStats :=
  {| NumberOfDevices := Z.of_nat (size (connectionsByDeviceID s));
     NumberOfUsers := Z.of_nat (size (connectionsByUserID s));
     NumberOfNotLoggedConnections := numberOfNotLoggedConnections s |}.

(** ** jwt.go *)

(** [strings.Split s sep] for a non-empty [sep]: cut at the first
    occurrence of [sep], go on with what follows it. Every cut consumes
    at least one byte, so [String.length s] rounds are enough. *)
Fixpoint genSplit (fuel : nat) (s sep : string) : list string :=
  match fuel with
  | O => [s]
  | S fuel' =>
    match index 0 sep s with
    | None => [s]
    | Some m =>
      let after := (m + String.length sep)%nat in
      substring 0 m s
        :: genSplit fuel' (substring after (String.length s - after) s) sep
    end
  end.

Definition Split (s sep : string) : list string :=
  genSplit (String.length s) s sep.

Definition ResolveIDToken (token : string) : string * bool :=
  let idtokensegments := Split token "Bearer " in
  if negb (length idtokensegments =? 2)%nat then ("", false)
  else (nth 1 idtokensegments "", true).

(** A decoded JSON value held in [jwt.MapClaims]. *)
Inductive Value :=
| VString (s : string)
| VNumber (n : Z)
| VBool (b : bool)
| VNull.

(** What [jwt.ParseWithClaims] hands back: the claims it filled in,
    [token.Valid], and whether [err] is non-nil. *)
Record Parsed := mkParsed {
  claims : gmap string Value;
  Valid : bool;
  err : bool
}.

(** The type assertion [v.(string)]; [None] is the run-time panic. *)
Definition assertString (v : option Value) : option string :=
  match v with
  | Some (VString s) => Some s
  | _ => None
  end.

(** The user of [login]: the claim [userId] or, when there is none, the
    claim [name], either one asserted to be a string. *)
Definition claimedUserID (claims0 : gmap string Value) : option UserID :=
  match claims0 !! "userId" with
  | Some uid => assertString (Some uid)
  | None => assertString (claims0 !! "name")
  end.

(** ** The gateway *)

Record Config := mkConfig {
  ListenInterface : string;
  URLPattern : string;
  JWKS : string;
  NatsAddress : string;
  NatsPoolSize : Z;
  NatsTopics : list string;
  RemoteAddr : string
}.

Definition LoginPrefix := "login>:".
Definition TopicPrefix := "topic>:".
Definition MaxUnLoggedConnectionCount : Z := 200.
Definition UnLoggedConnectionTimeout : Z := 60.

(** The gateway together with what it reaches: the store of the
    connections it allocated ([store], [allocated]), the package
    variable [JWKS] of jwt.go ([pkgJWKS]), the number of leases asked of
    the bus pool ([leased]) and the wire. *)
Record NatsWebSocket := mkGateway {
  config : Config;
  connections : ConnectionsStorage;
  lastConnectionNumber : Z;
  store : nat -> Connection;
  allocated : nat;
  pkgJWKS : string;
  leased : nat;
  wire : list Event
}.

Definition with_connections (w : NatsWebSocket) (s : ConnectionsStorage) :=
  {| config := config w; connections := s;
     lastConnectionNumber := lastConnectionNumber w; store := store w;
     allocated := allocated w; pkgJWKS := pkgJWKS w; leased := leased w;
     wire := wire w |}.

Definition with_store (w : NatsWebSocket) (h : nat -> Connection) :=
  {| config := config w; connections := connections w;
     lastConnectionNumber := lastConnectionNumber w; store := h;
     allocated := allocated w; pkgJWKS := pkgJWKS w; leased := leased w;
     wire := wire w |}.

Definition emit (w : NatsWebSocket) (e : Event) :=
  {| config := config w; connections := connections w;
     lastConnectionNumber := lastConnectionNumber w; store := store w;
     allocated := allocated w; pkgJWKS := pkgJWKS w; leased := leased w;
     wire := wire w ++ [e] |}.

Inductive Outcome (A : Type) :=
| Done (a : A)
| Panic (w : NatsWebSocket) (v : string)
| Exit (w : NatsWebSocket) (code : Z).
Arguments Done {A} a.
Arguments Panic {A} w v.
Arguments Exit {A} w code.

Definition bind {A B} (m : Outcome A) (k : A -> Outcome B) : Outcome B :=
  match m with
  | Done a => k a
  | Panic w v => Panic w v
  | Exit w code => Exit w code
  end.

(** *** Connection methods, on the store of the process *)

(** The fields of a connection after [Close]: [c.id = -1],
    [c.userID = ""], [c.deviceID = ""]. *)
Definition closed (k : Connection) : Connection :=
  {| id := -1; userID := ""; deviceID := "";
     startTime := startTime k; lastMessageAt := lastMessageAt k |}.

(** The fields of a connection after [Login]. *)
Definition loggedIn (k : Connection) (u : UserID) (d : DeviceID)
  : Connection :=
  {| id := id k; userID := u; deviceID := d;
     startTime := startTime k; lastMessageAt := lastMessageAt k |}.

Definition SendText (w : NatsWebSocket) (c : ConnPtr) (message : string) :=
  emit w (WriteMessage c TextMessage (Bytes message)).

Definition SendBinary (w : NatsWebSocket) (c : ConnPtr) (message : string) :=
  emit w (WriteMessage c BinaryMessage (Bytes message)).

(** [Close] writes its close frame with [websocket.CloseNormalClosure]
    whatever [code] it is given. *)
Definition Close (w : NatsWebSocket) (c : ConnPtr) (code : Z)
    (reason : string) : NatsWebSocket :=
  let w := emit w (WriteMessage c CloseMessage
                     (FormatCloseMessage CloseNormalClosure reason)) in
  let w := emit w (WsClose c) in
  with_store w (<[c := closed (store w c)]> (store w)).

Definition Login (w : NatsWebSocket) (c : ConnPtr) (u : UserID)
    (d : DeviceID) : NatsWebSocket :=
  let w := with_store w (<[c := loggedIn (store w c) u d]> (store w)) in
  emit w (SetReadLimit c 0).

Definition UpdateLastPingTime (now : Z) (w : NatsWebSocket) (c : ConnPtr) :=
  with_store w
    (<[c := {| id := id (store w c); userID := userID (store w c);
               deviceID := deviceID (store w c);
               startTime := startTime (store w c);
               lastMessageAt := now |}]> (store w)).

(** *** RemoveIf

    The range loop visits every entry of [connectionsByID] once: an
    iteration deletes only its own key and the callbacks of the gateway
    do not touch the map. Go leaves the order of a map range open; here
    it is the order of [map_to_list]. *)
Definition RemoveIf_body
    (condition : NatsWebSocket -> ConnPtr -> bool)
    (afterRemove : NatsWebSocket -> ConnPtr -> NatsWebSocket)
    (w : NatsWebSocket) (entry : Z * nat) : NatsWebSocket :=
  let '(id0, connection) := entry in
  if condition w connection then
    let '(_, userID0, deviceID0) := GetInfo (store w) connection in
    let s := connections w in
    let byID := delete id0 (connectionsByID s) in
    let byDevice :=
      if negb (String.eqb deviceID0 "")
      then delete deviceID0 (connectionsByDeviceID s)
      else connectionsByDeviceID s in
    let byUser :=
      if negb (String.eqb userID0 "") then
        match connectionsByUserID s !! userID0 with
        | None => connectionsByUserID s
        | Some userConnections =>
          if (size userConnections =? 1)%nat
          then delete userID0 (connectionsByUserID s)
          else <[userID0 := delete deviceID0 userConnections]>
                 (connectionsByUserID s)
        end
      else connectionsByUserID s in
    afterRemove
      (with_connections w
         {| connectionsByID := byID; connectionsByUserID := byUser;
            connectionsByDeviceID := byDevice;
            numberOfNotLoggedConnections :=
              numberOfNotLoggedConnections s |})
      connection
  else w.

Definition RemoveIf
    (condition : NatsWebSocket -> ConnPtr -> bool)
    (afterRemove : NatsWebSocket -> ConnPtr -> NatsWebSocket)
    (w : NatsWebSocket) : NatsWebSocket :=
  foldl (RemoveIf_body condition afterRemove) w
    (map_to_list (connectionsByID (connections w))).

(** [contains] of the gateway file. *)
Fixpoint contains (source : list string) (target : string) : bool :=
  match source with
  | [] => false
  | element :: rest =>
    if String.eqb element target then true else contains rest target
  end.

(** [message[n:]] *)
Fixpoint sliceFrom (n : nat) (message : string) : string :=
  match n, message with
  | O, _ => message
  | S n', String _ rest => sliceFrom n' rest
  | S _, EmptyString => EmptyString
  end.

Definition New (cfg : Config) : NatsWebSocket :=
  {| config := cfg; connections := NewConnectionsStorage;
     lastConnectionNumber := 0;
     store := fun _ => {| id := 0; userID := ""; deviceID := "";
                          startTime := 0; lastMessageAt := 0 |};
     allocated := 0; pkgJWKS := ""; leased := 0; wire := [] |}.

Definition getNewConnectionID (w : NatsWebSocket)
  : NatsWebSocket * ConnectionID :=
  let n := wrap64 (lastConnectionNumber w + 1) in
  ({| config := config w; connections := connections w;
      lastConnectionNumber := n; store := store w;
      allocated := allocated w; pkgJWKS := pkgJWKS w; leased := leased w;
      wire := wire w |}, n).

(** [registerConnection] allocates the [Connection]; its pointer is the
    next free cell of the store. *)
Definition registerConnection (now : Z) (w : NatsWebSocket)
  : NatsWebSocket * ConnPtr :=
  let '(w, newID) := getNewConnectionID w in
  let wsConnection := allocated w in
  let w :=
    {| config := config w; connections := connections w;
       lastConnectionNumber := lastConnectionNumber w;
       store := <[wsConnection := NewConnection now newID]> (store w);
       allocated := S wsConnection; pkgJWKS := pkgJWKS w;
       leased := leased w; wire := wire w |} in
  (with_connections w
     (AddNewConnection (store w) (connections w) wsConnection),
   wsConnection).

Definition unregisterConnection (w : NatsWebSocket) (connection : ConnPtr) :=
  with_connections w
    (RemoveConnection (store w) (connections w) connection).

Definition cleanConnectionsIfNeed (now : Z) (w : NatsWebSocket)
  : NatsWebSocket :=
  let stats := GetStats (connections w) in
  if NumberOfNotLoggedConnections stats >? MaxUnLoggedConnectionCount then
    RemoveIf
      (fun w con =>
         wrap64 (now - GetStartTime (store w) con)
           >? UnLoggedConnectionTimeout)
      (fun w con => Close w con ClosePolicyViolation "Auth")
      w
  else w.

(** [onConnection] after a successful upgrade; the read loop it starts
    is [handleInputMessages] below, fed with what the socket delivers. *)
Definition onConnection (now : Z) (w : NatsWebSocket)
  : NatsWebSocket * ConnPtr :=
  let w := emit w (SetReadLimit (allocated w) 1024) in
  let '(w, con) := registerConnection now w in
  (cleanConnectionsIfNeed now w, con).

Definition onClose (w : NatsWebSocket) (connection : ConnPtr) :=
  let '(connectionID, _, _) := GetInfo (store w) connection in
  if (connectionID =? -1)%Z then w else unregisterConnection w connection.

(** The close handler that [registerConnection] installs on the socket. *)
Definition closeHandler (w : NatsWebSocket) (wsConnection : ConnPtr) :=
  onClose w wsConnection.

Definition onBinaryMessage (w : NatsWebSocket) (connection : ConnPtr)
    (message : string) :=
  SendText w connection "binary message is not supported yet".

(** [log.Fatalf] writes the line and calls [os.Exit(1)]. *)
Definition log_Fatalf {A} (w : NatsWebSocket) (format : string) : Outcome A :=
  Exit (emit w (LogFatalf format)) 1.

(** One result of [connection.ReadMessage()], with the time at which
    it came back. [closeFrame] says that the peer's close frame has
    arrived: [ReadMessage] then runs the close handler of the socket
    before it returns its error. *)
Record Read := mkRead {
  readAt : Z;
  closeFrame : bool;
  messageType : Z;
  message : string;
  readErr : bool
}.

Section Gateway.

(** What the gateway calls and this development takes as given:
    [jwt.ParseWithClaims idtoken claims getKey], which reads the key set
    named by the package variable [JWKS]; [Get] of the package's bus
    pool, as the outcome of the [n]-th lease ([None] is an error);
    [Subscribe] of a bus client ([true] is an error). *)
Variable jwt_ParseWithClaims : string -> string -> Parsed.
Variable natsPool_Get : nat -> option BusClient.
Variable busClient_Subscribe : BusClient -> string -> bool.

Definition ParseJWT (w : NatsWebSocket) (idtoken jwks : string)
  : NatsWebSocket * Parsed :=
  let w :=
    {| config := config w; connections := connections w;
       lastConnectionNumber := lastConnectionNumber w; store := store w;
       allocated := allocated w; pkgJWKS := jwks; leased := leased w;
       wire := wire w |} in
  (w, jwt_ParseWithClaims (pkgJWKS w) idtoken).

Definition setupSubsrciber (w : NatsWebSocket) (connection : ConnPtr)
    (topic : string) : Outcome NatsWebSocket :=
  if negb (contains (NatsTopics (config w)) topic) then
    Done (SendText w connection "invalid topic")
  else
    let lease := leased w in
    let w :=
      emit {| config := config w; connections := connections w;
              lastConnectionNumber := lastConnectionNumber w;
              store := store w; allocated := allocated w;
              pkgJWKS := pkgJWKS w; leased := S lease; wire := wire w |}
           (PoolGet lease) in
    match natsPool_Get lease with
    | None => log_Fatalf w "Can't connect to nats: %v"
    | Some busClient =>
      if busClient_Subscribe busClient topic
      then log_Fatalf w "Can't connect to nats: %v"
      else Done (emit w (Subscribe busClient topic connection))
    end.

Definition login (w : NatsWebSocket) (connection : ConnPtr)
    (tokenBinary : string) : Outcome NatsWebSocket :=
  let '(idtoken, valid) := ResolveIDToken tokenBinary in
  if negb valid then
    Done (SendText w connection (LoginPrefix ++ "Not Authorized"))
  else
    let '(w, parsed) := ParseJWT w idtoken (JWKS (config w)) in
    if err parsed || negb (Valid parsed) then
      Done (SendText w connection (LoginPrefix ++ "Not Authorized"))
    else
      match claimedUserID (claims parsed) with
      | None =>
        Panic w "interface conversion: interface {} is not string"
      | Some userID0 =>
        let deviceID0 := RemoteAddr (config w) in
        let '(_, conUserID, _) := GetInfo (store w) connection in
        if negb (String.eqb conUserID "") then
          if negb (String.eqb conUserID userID0)
          then Done (SendText w connection "go away")
          else Done (SendText w connection "ok")
        else
          let w := Login w connection userID0 deviceID0 in
          let '(s, deviceConnectionBefore) :=
            OnLogin (store w) (connections w) connection in
          let w := with_connections w s in
          let w :=
            match deviceConnectionBefore with
            | Some before =>
              unregisterConnection
                (Close w before CloseGoingAway "OneConnectionPerDevice")
                before
            | None => w
            end in
          Done (SendText w connection "ok")
      end.

Definition onTextMessage (w : NatsWebSocket) (connection : ConnPtr)
    (message : string) : Outcome NatsWebSocket :=
  if String.eqb message "ping" then Done (SendText w connection "pong")
  else if String.prefix LoginPrefix message then
    login w connection (sliceFrom (String.length LoginPrefix) message)
  else if String.prefix TopicPrefix message then
    if negb (IsLoggedIn (store w) connection)
    then Done (SendText w connection "go away")
    else setupSubsrciber w connection
           (sliceFrom (String.length TopicPrefix) message)
  else Done w.

(** The read loop over what the socket delivers. The result says
    whether the loop has returned ([true]) or waits in [ReadMessage]
    for more ([false]). *)
Fixpoint handleInputMessages (w : NatsWebSocket) (connection : ConnPtr)
    (reads : list Read) : Outcome (NatsWebSocket * bool) :=
  match reads with
  | [] => Done (w, false)
  | r :: rest =>
    let w := if closeFrame r then closeHandler w connection else w in
    if readErr r then
      let w := Close w connection CloseInternalServerErr "ServerError" in
      Done (onClose w connection, true)
    else
      let w := UpdateLastPingTime (readAt r) w connection in
      if (messageType r =? TextMessage)%Z then
        bind (onTextMessage w connection (message r))
             (fun w => handleInputMessages w connection rest)
      else if (messageType r =? BinaryMessage)%Z then
        handleInputMessages (onBinaryMessage w connection (message r))
          connection rest
      else if (messageType r =? CloseMessage)%Z then
        Done (onClose w connection, true)
      else handleInputMessages w connection rest
  end.

End Gateway.

(** ** Observations *)

Definition panics {A} (o : Outcome A) : bool :=
  match o with Panic _ _ => true | _ => false end.

Definition exitCode {A} (o : Outcome A) : option Z :=
  match o with Exit _ code => Some code | _ => None end.

(** The state in which an outcome leaves the process. *)
Definition stateOf (o : Outcome NatsWebSocket) : NatsWebSocket :=
  match o with Done w => w | Panic w _ => w | Exit w _ => w end.

(** The frames written to [c], oldest first. *)
Definition framesTo (c : ConnPtr) (l : list Event) : list (Z * Payload) :=
  omap (fun e =>
          match e with
          | WriteMessage c' mt data =>
            if decide (c' = c) then Some (mt, data) else None
          | _ => None
          end) l.

(** Whether the socket of [c] has been closed. *)
Definition socketClosed (c : ConnPtr) (l : list Event) : bool :=
  existsb (fun e =>
             match e with
             | WsClose c' => bool_decide (c' = c)
             | _ => false
             end) l.

(** The sessions of the by-id mapping that hold no identity, counted. *)
Definition notLoggedByID (h : Store) (s : ConnectionsStorage) : Z :=
  Z.of_nat
    (size (filter (fun entry : Z * nat => userID (h entry.2) = "")
             (connectionsByID s))).

(** The slot of device [d] in the device mapping of user [u]. *)
Definition userSlot (s : ConnectionsStorage) (u : UserID) (d : DeviceID)
  : option ConnPtr :=
  connectionsByUserID s !! u ≫= fun userConnections => userConnections !! d.

Definition inByID (s : ConnectionsStorage) (c : ConnPtr) : Prop :=
  exists k, connectionsByID s !! k = Some c.

Definition inByUser (s : ConnectionsStorage) (c : ConnPtr) : Prop :=
  exists u userConnections d,
    connectionsByUserID s !! u = Some userConnections
    /\ userConnections !! d = Some c.

Definition inByDevice (s : ConnectionsStorage) (c : ConnPtr) : Prop :=
  exists d, connectionsByDeviceID s !! d = Some c.

(** What is known of a session once the read loop has stopped. *)
Definition afterLoop (o : Outcome (NatsWebSocket * bool)) (c : ConnPtr)
  : option (bool * Z * list (Z * Payload) * bool
            * option nat * option nat * option nat) :=
  match o with
  | Done (w, returned) =>
    Some (returned, id (store w c), framesTo c (wire w),
          socketClosed c (wire w),
          GetConnectionByID (connections w) 1,
          GetDeviceConnection (connections w) (RemoteAddr (config w)),
          userSlot (connections w) "alice" (RemoteAddr (config w)))
  | _ => None
  end.

(** A token that passes [ResolveIDToken] and the checks of the parser,
    and whose claims name the user [u]. *)
Definition authenticates (parse : string -> string -> Parsed)
    (w : NatsWebSocket) (tokenBinary : string) (u : UserID) : Prop :=
  exists idtoken,
    ResolveIDToken tokenBinary = (idtoken, true)
    /\ err (parse (JWKS (config w)) idtoken) = false
    /\ Valid (parse (JWKS (config w)) idtoken) = true
    /\ claimedUserID (claims (parse (JWKS (config w)) idtoken)) = Some u.

(** The frames and socket operations of an eviction. *)
Definition evictionOf (before : ConnPtr) : list Event :=
  [WriteMessage before CloseMessage
     (FormatCloseMessage CloseNormalClosure "OneConnectionPerDevice");
   WsClose before].

(** A session as [registerConnection] leaves it: open, without
    identity, the entry of its id in the by-id mapping and nowhere else
    in the registry, its id shared with no other connection. *)
Record newcomer (w : NatsWebSocket) (c : ConnPtr) : Prop := {
  nc_open : id (store w c) <> -1;
  nc_unbound : userID (store w c) = "";
  nc_byID : forall k,
      connectionsByID (connections w) !! k = Some c <-> k = id (store w c);
  nc_byUser : ~ inByUser (connections w) c;
  nc_byDevice : ~ inByDevice (connections w) c;
  nc_unique : forall c', c' <> c -> id (store w c') <> id (store w c)
}.

(** ** A gateway to run the code on *)

Module Fixture.

Definition cfg : Config :=
  {| ListenInterface := "localhost:8080"; URLPattern := "/";
     JWKS := "https://min.auth0.com/.well-known/jwks.json";
     NatsAddress := "nats://localhost:4222"; NatsPoolSize := 2;
     NatsTopics := ["test.a"; "test.b"]; RemoteAddr := "10.0.0.1" |}.

(** A token checker that knows four signed tokens: two with a string
    user, one whose [userId] is a number, one with neither [userId]
    nor [name]; everything else fails to parse. *)
Definition parse (jwks idtoken : string) : Parsed :=
  if String.eqb idtoken "alice" then
    {| claims := {[ "userId" := VString "alice" ]};
       Valid := true; err := false |}
  else if String.eqb idtoken "bob" then
    {| claims := {[ "name" := VString "bob" ]};
       Valid := true; err := false |}
  else if String.eqb idtoken "num" then
    {| claims := {[ "userId" := VNumber 7 ]};
       Valid := true; err := false |}
  else if String.eqb idtoken "anon" then
    {| claims := {[ "email" := VString "a@b" ]};
       Valid := true; err := false |}
  else {| claims := ∅; Valid := false; err := true |}.

(** A pool that has run dry, one that leases client 0, and a bus that
    refuses or takes every subscription. *)
Definition dryPool (n : nat) : option BusClient := None.
Definition pool (n : nat) : option BusClient := Some 0%nat.
Definition busDown (busClient : BusClient) (topic : string) := true.
Definition busUp (busClient : BusClient) (topic : string) := false.

(** [n] connections accepted at time [now]. *)
Definition accepts (n : nat) (now : Z) (w : NatsWebSocket) :=
  Nat.iter n (fun w => (onConnection now w).1) w.

(** One accepted connection: pointer 0, id 1. *)
Definition one : NatsWebSocket := accepts 1 0 (New cfg).

(** Two accepted connections: pointers 0 and 1, ids 1 and 2. *)
Definition two : NatsWebSocket := accepts 2 0 (New cfg).

(** One connection, logged in as alice. *)
Definition aliceIn : NatsWebSocket :=
  stateOf (login parse one 0%nat "Bearer alice").

(** 202 connections accepted at time 0, the first one then logged in:
    201 of them are not logged in. *)
Definition crowded : NatsWebSocket :=
  stateOf (login parse (accepts 202 0 (New cfg)) 0%nat "Bearer alice").

End Fixture.

(** ** The registry as its operations keep it *)

(** A connection that the registry does not hold in any mapping. *)
Definition unknown (s : ConnectionsStorage) (c : ConnPtr) : Prop :=
  ~ inByID s c /\ ~ inByUser s c /\ ~ inByDevice s c.

(** What [AddNewConnection], [OnLogin] and [removeConnection] keep true
    of the registry and of the fields of the connections it holds:
    - a connection is the entry of its own id, and that id is not the
      -1 of a closed connection;
    - a slot of the by-user mapping holds a connection with that user
      and that device, which is registered by id and holds the slot of
      the device in the by-device mapping;
    - the holder of a device slot holds the slot of its user for that
      device;
    - a registered connection with a user holds the slot of its device;
    - no user has an empty device mapping;
    - the count is the number of registered connections without user,
      as an [int]. *)
Record RegInv (h : Store) (s : ConnectionsStorage) : Prop := {
  inv_key : forall k x,
      connectionsByID s !! k = Some x -> id (h x) = k /\ k <> -1;
  inv_slot : forall u d x,
      userSlot s u d = Some x ->
      userID (h x) = u /\ deviceID (h x) = d /\ u <> ""
      /\ connectionsByID s !! id (h x) = Some x
      /\ connectionsByDeviceID s !! d = Some x;
  inv_device : forall d x,
      connectionsByDeviceID s !! d = Some x ->
      userSlot s (userID (h x)) d = Some x;
  inv_logged : forall k x,
      connectionsByID s !! k = Some x ->
      userID (h x) <> "" ->
      connectionsByDeviceID s !! deviceID (h x) = Some x;
  inv_users : forall u userConnections,
      connectionsByUserID s !! u = Some userConnections ->
      userConnections <> ∅;
  inv_count :
      numberOfNotLoggedConnections s = wrap64 (notLoggedByID h s)
}.

(** The registries that the operations build when they are used as the
    gateway uses them: a connection is added once, without user, under
    an id that is free and not -1; a registered connection without user
    is given a user and a device and passed to [OnLogin]; a connection
    is removed while it is registered, or when its id is free; the
    fields of a connection that the registry does not hold may change. *)
Inductive reachable : (nat -> Connection) -> ConnectionsStorage -> Prop :=
| reach_new h : reachable h NewConnectionsStorage
| reach_add h s c :
    reachable h s ->
    connectionsByID s !! id (h c) = None ->
    id (h c) <> -1 ->
    userID (h c) = "" ->
    reachable h (AddNewConnection h s c)
| reach_login h s c u d :
    reachable h s ->
    connectionsByID s !! id (h c) = Some c ->
    userID (h c) = "" ->
    u <> "" ->
    reachable (<[c := loggedIn (h c) u d]> h)
              (OnLogin (<[c := loggedIn (h c) u d]> h) s c).1
| reach_remove h s c :
    reachable h s ->
    connectionsByID s !! id (h c) = Some c
    \/ connectionsByID s !! id (h c) = None ->
    reachable h (removeConnection h s c)
| reach_store h s c k :
    reachable h s ->
    unknown s c ->
    reachable (<[c := k]> h) s.

(** A token checker for which every token is signed and names the empty
    user. *)
Module Probe.

Definition blankUser (jwks idtoken : string) : Parsed :=
  {| claims := {[ "userId" := VString "" ]}; Valid := true; err := false |}.

End Probe.

(** ** Properties *)

(** Closed statements about runs of the code on the gateway above are
    settled by evaluation. *)
Ltac by_evaluation := vm_compute; repeat split; reflexivity.

(** *** [strings.Split]: the rounds allowed are enough *)

Lemma substring_length_le n m s : (String.length (substring n m s) <= m)%nat.
Proof.
  revert n m. induction s as [|a s IH]; intros [|n] [|m]; simpl;
    try lia.
  - specialize (IH 0%nat m). lia.
  - apply IH.
  - apply IH.
Qed.

Lemma index_nonempty_in_empty sep :
  sep <> "" -> index 0 sep "" = None.
Proof. destruct sep; [congruence | reflexivity]. Qed.

Lemma genSplit_fuel sep fuel1 fuel2 s :
  sep <> "" ->
  (String.length s <= fuel1)%nat ->
  (String.length s <= fuel2)%nat ->
  genSplit fuel1 s sep = genSplit fuel2 s sep.
Proof.
  intros Hsep. revert fuel2 s.
  assert (Hlen : (1 <= String.length sep)%nat)
    by (destruct sep; [congruence | simpl; lia]).
  assert (Hnil : forall fuel, genSplit fuel "" sep = [""]).
  { intros [|fuel]; cbn [genSplit]; [reflexivity|].
    rewrite index_nonempty_in_empty by exact Hsep. reflexivity. }
  induction fuel1 as [|fuel1 IH]; intros fuel2 s H1 H2.
  - destruct s; [|simpl in H1; lia]. rewrite !Hnil. reflexivity.
  - destruct fuel2 as [|fuel2].
    + destruct s; [|simpl in H2; lia]. rewrite !Hnil. reflexivity.
    + cbn [genSplit]. destruct (index 0 sep s) as [m|]; [|reflexivity].
      f_equal.
      pose proof (substring_length_le (m + String.length sep)
                    (String.length s - (m + String.length sep)) s).
      apply IH; lia.
Qed.

(** [Split] does not depend on the bound of its rounds. *)
Lemma Split_fuel s sep fuel :
  sep <> "" ->
  (String.length s <= fuel)%nat ->
  Split s sep = genSplit fuel s sep.
Proof. intros Hsep Hfuel. apply genSplit_fuel; [exact Hsep | lia | exact Hfuel]. Qed.


(** C10. [IsClosed] re-invokes itself on the same connection and has no
    other branch: whatever the depth of calls allowed, no call of
    [IsClosed] has returned a value. *)
Theorem IsClosed_never_returns :
  forall (fuel : nat) (h : nat -> Connection) (c : nat),
    IsClosed fuel h c = None.
Proof.
  induction fuel as [|fuel IH]; intros h c; simpl; [reflexivity | apply IH].
Qed.

(** C5 (the code departs from it). [ResolveIDToken] splits the input at
    every [Bearer ] and wants two pieces: an input with the scheme in
    the middle is taken as valid and what follows the scheme is handed
    on, so that a login frame that does not begin with [Bearer ] gets
    [ok]; an input that begins with [Bearer ] and holds the scheme a
    second time is refused. *)
Theorem ResolveIDToken_not_a_prefix_test :
  String.prefix "Bearer " "xBearer alice" = false
  /\ ResolveIDToken "xBearer alice" = ("alice", true)
  /\ framesTo 0 (wire (stateOf
       (onTextMessage Fixture.parse Fixture.pool Fixture.busUp Fixture.one
          0%nat "login>:xBearer alice")))
     = [(TextMessage, Bytes "ok")]
  /\ IsLoggedIn (store (stateOf
       (onTextMessage Fixture.parse Fixture.pool Fixture.busUp Fixture.one
          0%nat "login>:xBearer alice"))) 0 = true
  /\ String.prefix "Bearer " "Bearer a Bearer b" = true
  /\ ResolveIDToken "Bearer a Bearer b" = ("", false).
Proof. by_evaluation. Qed.

(** *** The sweep and the counter *)

Lemma RemoveIf_counter condition afterRemove w :
  (forall w c,
     numberOfNotLoggedConnections (connections (afterRemove w c))
     = numberOfNotLoggedConnections (connections w)) ->
  numberOfNotLoggedConnections (connections (RemoveIf condition afterRemove w))
  = numberOfNotLoggedConnections (connections w).
Proof.
  intros Hafter. unfold RemoveIf.
  generalize (map_to_list (connectionsByID (connections w))).
  intros l. revert w.
  induction l as [|[k c] l IH]; intros w; simpl; [reflexivity|].
  rewrite IH. unfold RemoveIf_body.
  destruct (condition w c); [|reflexivity].
  unfold GetInfo. rewrite Hafter. reflexivity.
Qed.

Lemma cleanConnectionsIfNeed_counter now w :
  numberOfNotLoggedConnections (connections (cleanConnectionsIfNeed now w))
  = numberOfNotLoggedConnections (connections w).
Proof.
  unfold cleanConnectionsIfNeed.
  destruct (_ >? _); [|reflexivity].
  apply RemoveIf_counter. intros; reflexivity.
Qed.

(** C1 (the code departs from it). [removeConnection] takes a session
    without identity off the count, [RemoveIf] does not touch the
    count: after one registration and a sweep that removes the session,
    the by-id mapping is empty and holds no session without identity,
    and the count is still 1, where [RemoveConnection] on the same
    registry leaves 0. Through the gateway: after the reaper has swept
    202 sessions, one session without identity is registered and the
    count is 202. *)
Theorem RemoveIf_forgets_the_count :
  let swept := RemoveIf (fun _ _ => true) (fun w _ => w) Fixture.one in
  let removed := RemoveConnection (store Fixture.one)
                   (connections Fixture.one) 0%nat in
  let reaped := (onConnection 100 Fixture.crowded).1 in
  NumberOfNotLoggedConnections (GetStats (connections Fixture.one)) = 1
  /\ notLoggedByID (store Fixture.one) (connections Fixture.one) = 1
  /\ map_to_list (connectionsByID (connections swept)) = []
  /\ notLoggedByID (store swept) (connections swept) = 0
  /\ NumberOfNotLoggedConnections (GetStats (connections swept)) = 1
  /\ NumberOfNotLoggedConnections (GetStats removed) = 0
  /\ notLoggedByID (store reaped) (connections reaped) = 1
  /\ NumberOfNotLoggedConnections (GetStats (connections reaped)) = 202.
Proof. by_evaluation. Qed.

(** *** The read loop on a transport error *)

Lemma onClose_after_Close w c code reason :
  onClose (Close w c code reason) c = Close w c code reason.
Proof.
  unfold onClose, GetInfo, Close; simpl.
  rewrite fn_lookup_insert. reflexivity.
Qed.

Lemma read_error_keeps_registry parse get sub w c t mt m rest :
  exists w',
    handleInputMessages parse get sub w c (mkRead t false mt m true :: rest)
    = Done (w', true)
    /\ connections w' = connections w
    /\ id (store w' c) = -1.
Proof.
  simpl. rewrite onClose_after_Close. eexists; split; [reflexivity|].
  split; [reflexivity|]. unfold Close; simpl. rewrite fn_lookup_insert.
  reflexivity.
Qed.

(** C4 (the code departs from it). On a read error the loop closes the
    session, which sets its id to -1, and only then calls [onClose],
    which returns at once for id -1: the loop returns and the session is
    still the entry of its id in the by-id mapping; a session that was
    logged in is still in the by-user and by-device mappings as well.
    The close frame carries the reason [ServerError] and the code of a
    normal closure. Only when the error follows the peer's close frame
    has the close handler unregistered the session before [Close]. *)
Theorem read_error_leaves_session_registered :
  afterLoop
    (handleInputMessages Fixture.parse Fixture.pool Fixture.busUp
       Fixture.one 0%nat [mkRead 5 false 0 "" true]) 0%nat
  = Some (true, -1,
          [(CloseMessage, FormatCloseMessage CloseNormalClosure "ServerError")],
          true, Some 0%nat, None, None)
  /\ afterLoop
       (handleInputMessages Fixture.parse Fixture.pool Fixture.busUp
          Fixture.aliceIn 0%nat [mkRead 5 false 0 "" true]) 0%nat
     = Some (true, -1,
             [(TextMessage, Bytes "ok");
              (CloseMessage,
               FormatCloseMessage CloseNormalClosure "ServerError")],
             true, Some 0%nat, Some 0%nat, Some 0%nat)
  /\ afterLoop
       (handleInputMessages Fixture.parse Fixture.pool Fixture.busUp
          Fixture.aliceIn 0%nat [mkRead 5 true 0 "" true]) 0%nat
     = Some (true, -1,
             [(TextMessage, Bytes "ok");
              (CloseMessage,
               FormatCloseMessage CloseNormalClosure "ServerError")],
             true, None, None, None).
Proof. by_evaluation. Qed.

(** *** Tokens that do not authenticate *)

(** A login frame whose token [ResolveIDToken] refuses, or whose token
    the parser refuses ([err] set or [token.Valid] false), is answered
    with the one frame [login>:Not Authorized]; the registry and the
    sessions are as before. *)
Lemma login_not_authorized parse w c tokenBinary :
  (ResolveIDToken tokenBinary).2 = false
  \/ err (parse (JWKS (config w)) (ResolveIDToken tokenBinary).1) = true
  \/ Valid (parse (JWKS (config w)) (ResolveIDToken tokenBinary).1) = false ->
  exists w',
    login parse w c tokenBinary = Done w'
    /\ wire w'
       = (wire w
            ++ [WriteMessage c TextMessage (Bytes "login>:Not Authorized")])%list
    /\ store w' = store w
    /\ connections w' = connections w.
Proof.
  unfold login. destruct (ResolveIDToken tokenBinary) as [idtoken valid].
  cbn [fst snd]. unfold ParseJWT. cbn [pkgJWKS config].
  intros H. destruct valid; cbn [negb].
  - destruct H as [H | [H | H]]; [discriminate | |]; rewrite H;
      [|rewrite orb_true_r]; cbn; eexists; repeat split.
  - eexists; repeat split.
Qed.

(** C6 (the code departs from it). A token that passes the signature
    and expiry checks and whose claims hold a [userId] that is not a
    string, or neither [userId] nor [name], makes the unchecked type
    assertion of [login] panic: no [login>:Not Authorized] is written
    and the panic leaves the read loop. *)
Theorem login_panics_without_string_user :
  let o1 := onTextMessage Fixture.parse Fixture.pool Fixture.busUp
              Fixture.one 0%nat "login>:Bearer num" in
  let o2 := onTextMessage Fixture.parse Fixture.pool Fixture.busUp
              Fixture.one 0%nat "login>:Bearer anon" in
  let loop := handleInputMessages Fixture.parse Fixture.pool Fixture.busUp
                Fixture.one 0%nat
                [mkRead 5 false TextMessage "login>:Bearer num" false;
                 mkRead 6 false TextMessage "ping" false] in
  panics o1 = true /\ framesTo 0 (wire (stateOf o1)) = []
  /\ panics o2 = true /\ framesTo 0 (wire (stateOf o2)) = []
  /\ panics loop = true.
Proof. by_evaluation. Qed.

(** C3 (the code departs from it). The predicate handed to [RemoveIf]
    is the age test alone. With 201 sessions not logged in, the sweep of
    the next accept closes the logged-in session 0 as well, once it is
    older than the timeout, and takes it out of the by-device mapping.
    The close frame carries the reason [Auth] and the code of a normal
    closure. *)
Theorem reaper_closes_logged_in_session :
  let w := Fixture.crowded in
  let w' := (onConnection 100 w).1 in
  IsLoggedIn (store w) 0 = true
  /\ NumberOfNotLoggedConnections (GetStats (connections w)) = 201
  /\ GetDeviceConnection (connections w) "10.0.0.1" = Some 0%nat
  /\ framesTo 0 (wire w) = [(TextMessage, Bytes "ok")]
  /\ framesTo 0 (wire w')
     = [(TextMessage, Bytes "ok");
        (CloseMessage, FormatCloseMessage CloseNormalClosure "Auth")]
  /\ socketClosed 0 (wire w') = true
  /\ GetInfo (store w') 0 = (-1, "", "")
  /\ GetDeviceConnection (connections w') "10.0.0.1" = None.
Proof. by_evaluation. Qed.

(** *** Subscribing *)

Lemma prefix_empty (s : string) : String.prefix "" s = true.
Proof. destruct s; reflexivity. Qed.

(** C8. A session that is logged in and sends [topic>:name] with [name]
    not among the configured topics gets the one frame [invalid topic];
    nothing else reaches the wire (no lease of the pool, no
    subscription), the lease count, the registry and the session are as
    before. *)
Theorem invalid_topic_rejected parse get sub w c name :
  IsLoggedIn (store w) c = true ->
  contains (NatsTopics (config w)) name = false ->
  exists w',
    onTextMessage parse get sub w c (TopicPrefix ++ name) = Done w'
    /\ wire w'
       = (wire w ++ [WriteMessage c TextMessage (Bytes "invalid topic")])%list
    /\ leased w' = leased w
    /\ store w' = store w
    /\ connections w' = connections w.
Proof.
  intros Hin Htopic. unfold onTextMessage, TopicPrefix, LoginPrefix. simpl.
  change ("" +:+ name) with name. rewrite prefix_empty, Hin. simpl. unfold setupSubsrciber. rewrite Htopic. simpl.
  eexists. split; [reflexivity|]. repeat split.
Qed.

Lemma invalid_topic_rejected_witness :
  IsLoggedIn (store Fixture.aliceIn) 0 = true
  /\ contains (NatsTopics (config Fixture.aliceIn)) "paco.is.smart" = false
  /\ exists w',
       onTextMessage Fixture.parse Fixture.pool Fixture.busUp Fixture.aliceIn
         0%nat "topic>:paco.is.smart" = Done w'
       /\ wire w'
          = (wire Fixture.aliceIn
               ++ [WriteMessage 0 TextMessage (Bytes "invalid topic")])%list
       /\ leased w' = leased Fixture.aliceIn
       /\ store w' = store Fixture.aliceIn
       /\ connections w' = connections Fixture.aliceIn.
Proof.
  split; [reflexivity|]. split; [reflexivity|].
  apply (invalid_topic_rejected Fixture.parse Fixture.pool Fixture.busUp
           Fixture.aliceIn 0%nat "paco.is.smart"); reflexivity.
Defined.

(** C9, as the code has it. When the lease of a bus client fails, or
    the subscription on the leased client fails, [log.Fatalf] writes the
    log line and ends the process with status 1: no frame is written to
    the client, and neither this session nor any other is served
    afterwards. *)
Theorem subscribe_failure_exits parse get sub w c name :
  IsLoggedIn (store w) c = true ->
  contains (NatsTopics (config w)) name = true ->
  get (leased w) = None
  \/ (exists busClient,
        get (leased w) = Some busClient /\ sub busClient name = true) ->
  exists w',
    onTextMessage parse get sub w c (TopicPrefix ++ name) = Exit w' 1
    /\ wire w'
       = (wire w
            ++ [PoolGet (leased w); LogFatalf "Can't connect to nats: %v"])%list
    /\ store w' = store w
    /\ connections w' = connections w.
Proof.
  intros Hin Htopic Hfail.
  unfold onTextMessage, TopicPrefix, LoginPrefix. simpl.
  change ("" +:+ name) with name. rewrite prefix_empty, Hin. simpl. unfold setupSubsrciber. rewrite Htopic. simpl.
  destruct Hfail as [Hget | (busClient & Hget & Hsub)]; rewrite Hget.
  - eexists. split; [reflexivity|]. simpl. rewrite <- app_assoc.
    repeat split.
  - rewrite Hsub. eexists. split; [reflexivity|]. simpl.
    rewrite <- app_assoc. repeat split.
Qed.

Lemma subscribe_failure_exits_witness :
  IsLoggedIn (store Fixture.aliceIn) 0 = true
  /\ contains (NatsTopics (config Fixture.aliceIn)) "test.a" = true
  /\ exists w',
       onTextMessage Fixture.parse Fixture.dryPool Fixture.busUp
         Fixture.aliceIn 0%nat "topic>:test.a" = Exit w' 1
       /\ wire w'
          = (wire Fixture.aliceIn
               ++ [PoolGet (leased Fixture.aliceIn);
                   LogFatalf "Can't connect to nats: %v"])%list
       /\ store w' = store Fixture.aliceIn
       /\ connections w' = connections Fixture.aliceIn.
Proof.
  split; [reflexivity|]. split; [reflexivity|].
  apply (subscribe_failure_exits Fixture.parse Fixture.dryPool Fixture.busUp
           Fixture.aliceIn 0%nat "test.a");
    [reflexivity | reflexivity | left; reflexivity].
Defined.

(** C9 as stated does not hold: with a pool that cannot lease, and with
    a bus that refuses the subscription, the subscribe request of a
    logged-in session for a configured topic does not come back to the
    read loop. *)
Lemma subscribe_failure_is_not_local :
  ~ (exists w',
       onTextMessage Fixture.parse Fixture.dryPool Fixture.busUp
         Fixture.aliceIn 0%nat "topic>:test.a" = Done w')
  /\ ~ (exists w',
          onTextMessage Fixture.parse Fixture.pool Fixture.busDown
            Fixture.aliceIn 0%nat "topic>:test.a" = Done w')
  /\ exitCode
       (handleInputMessages Fixture.parse Fixture.dryPool Fixture.busUp
          Fixture.aliceIn 0%nat
          [mkRead 5 false TextMessage "topic>:test.a" false;
           mkRead 6 false TextMessage "ping" false]) = Some 1.
Proof.
  split; [|split].
  - intros [w' H]. apply (f_equal exitCode) in H. vm_compute in H.
    discriminate.
  - intros [w' H]. apply (f_equal exitCode) in H. vm_compute in H.
    discriminate.
  - vm_compute. reflexivity.
Qed.

(** *** Logging in *)

(** *** The registry, map by map *)

Lemma removeConnection_byID h s p :
  connectionsByID (removeConnection h s p)
  = delete (id (h p)) (connectionsByID s).
Proof.
  unfold removeConnection, GetInfo.
  destruct (connectionsByID s !! id (h p)) eqn:E.
  - destruct (String.eqb (userID (h p)) ""); reflexivity.
  - symmetry. apply delete_id. exact E.
Qed.

Lemma removeConnection_byDevice_mono h s p d x :
  connectionsByDeviceID (removeConnection h s p) !! d = Some x ->
  connectionsByDeviceID s !! d = Some x.
Proof.
  unfold removeConnection, GetInfo.
  destruct (connectionsByID s !! id (h p)); [|tauto].
  destruct (String.eqb (userID (h p)) ""); simpl; [tauto|].
  destruct (connectionsByDeviceID s !! deviceID (h p)); [|tauto].
  rewrite lookup_delete_Some. tauto.
Qed.

Lemma userSlot_Some s u d x :
  userSlot s u d = Some x <->
  exists userConnections,
    connectionsByUserID s !! u = Some userConnections
    /\ userConnections !! d = Some x.
Proof.
  unfold userSlot. destruct (connectionsByUserID s !! u) as [m|]; simpl.
  - split; [eauto|]. intros (m' & [= <-] & H). exact H.
  - split; [discriminate|]. intros (m' & [=] & _).
Qed.

Lemma inByUser_userSlot s x :
  inByUser s x <-> exists u d, userSlot s u d = Some x.
Proof.
  unfold inByUser. split.
  - intros (u & m & d & Hu & Hd). exists u, d. apply userSlot_Some. eauto.
  - intros (u & d & H). apply userSlot_Some in H as (m & Hu & Hd). eauto.
Qed.

Lemma removeConnection_userSlot_mono h s p u d x :
  userSlot (removeConnection h s p) u d = Some x ->
  userSlot s u d = Some x.
Proof.
  unfold removeConnection, GetInfo.
  destruct (connectionsByID s !! id (h p)); [|tauto].
  destruct (String.eqb (userID (h p)) ""); [tauto|].
  unfold userSlot at 1; simpl.
  destruct (connectionsByUserID s !! userID (h p)) as [m|] eqn:Em; [|tauto].
  destruct (size (delete (deviceID (h p)) m) =? 0)%nat.
  - destruct (decide (userID (h p) = u)) as [<-|Hne].
    + rewrite lookup_delete_eq. discriminate.
    + rewrite lookup_delete_ne by exact Hne. tauto.
  - destruct (decide (userID (h p) = u)) as [<-|Hne].
    + rewrite lookup_insert_eq. simpl. rewrite lookup_delete_Some.
      intros [_ H]. apply userSlot_Some. eauto.
    + rewrite lookup_insert_ne by exact Hne. tauto.
Qed.

(** A removal that goes through for a session with an identity empties
    the slot of its device and its slot in the by-user mapping. *)
Lemma removeConnection_clears h s p :
  is_Some (connectionsByID s !! id (h p)) ->
  userID (h p) <> "" ->
  connectionsByDeviceID (removeConnection h s p) !! deviceID (h p) = None
  /\ userSlot (removeConnection h s p) (userID (h p)) (deviceID (h p)) = None.
Proof.
  intros [x Hx] Hu. apply String.eqb_neq in Hu.
  unfold removeConnection, GetInfo. rewrite Hx, Hu. split; simpl.
  - destruct (connectionsByDeviceID s !! deviceID (h p)) eqn:E;
      [apply lookup_delete_eq | exact E].
  - unfold userSlot; simpl.
    destruct (connectionsByUserID s !! userID (h p)) as [m|] eqn:Em.
    + destruct (size (delete (deviceID (h p)) m) =? 0)%nat.
      * rewrite lookup_delete_eq. reflexivity.
      * rewrite lookup_insert_eq. simpl. apply lookup_delete_eq.
    + rewrite Em. reflexivity.
Qed.

Lemma removeConnection_byDevice_ne h s p d :
  d <> deviceID (h p) ->
  connectionsByDeviceID (removeConnection h s p) !! d
  = connectionsByDeviceID s !! d.
Proof.
  intros Hd. unfold removeConnection, GetInfo.
  destruct (connectionsByID s !! id (h p)); [|reflexivity].
  destruct (String.eqb (userID (h p)) ""); simpl; [reflexivity|].
  destruct (connectionsByDeviceID s !! deviceID (h p)); [|reflexivity].
  apply lookup_delete_ne. congruence.
Qed.

Lemma removeConnection_no_identity h s p :
  userID (h p) = "" ->
  connectionsByDeviceID (removeConnection h s p) = connectionsByDeviceID s
  /\ connectionsByUserID (removeConnection h s p) = connectionsByUserID s.
Proof.
  intros Hu. unfold removeConnection, GetInfo. rewrite Hu. simpl.
  destruct (connectionsByID s !! id (h p)); split; reflexivity.
Qed.

(** [OnLogin] for a connection that holds a user. *)
Lemma OnLogin_spec h s c :
  userID (h c) <> "" ->
  exists s',
    OnLogin h s c = (s', connectionsByDeviceID s !! deviceID (h c))
    /\ connectionsByID s'
       = match connectionsByDeviceID s !! deviceID (h c) with
         | Some before => delete (id (h before)) (connectionsByID s)
         | None => connectionsByID s
         end
    /\ connectionsByDeviceID s' !! deviceID (h c) = Some c
    /\ userSlot s' (userID (h c)) (deviceID (h c)) = Some c
    /\ (forall d x,
          d <> deviceID (h c) ->
          connectionsByDeviceID s' !! d = Some x ->
          connectionsByDeviceID s !! d = Some x)
    /\ (forall u d x,
          userSlot s' u d = Some x ->
          (u = userID (h c) /\ d = deviceID (h c) /\ x = c)
          \/ (userSlot s u d = Some x
              /\ forall before,
                   connectionsByDeviceID s !! deviceID (h c) = Some before ->
                   is_Some (connectionsByID s !! id (h before)) ->
                   userID (h before) <> "" ->
                   ~ (u = userID (h before) /\ d = deviceID (h before)))).
Proof.
  intros Hu. apply String.eqb_neq in Hu.
  unfold OnLogin, GetInfo. rewrite Hu. cbn [connectionsByDeviceID].
  set (s1 := {| connectionsByID := connectionsByID s;
                connectionsByUserID := connectionsByUserID s;
                connectionsByDeviceID := connectionsByDeviceID s;
                numberOfNotLoggedConnections :=
                  wrap64 (numberOfNotLoggedConnections s - 1) |}).
  set (s2 := match connectionsByDeviceID s !! deviceID (h c) with
             | Some before => removeConnection h s1 before
             | None => s1
             end).
  assert (HbyID : connectionsByID s2
                  = match connectionsByDeviceID s !! deviceID (h c) with
                    | Some before => delete (id (h before)) (connectionsByID s)
                    | None => connectionsByID s
                    end).
  { subst s2. destruct (connectionsByDeviceID s !! deviceID (h c));
      [rewrite removeConnection_byID; reflexivity | reflexivity]. }
  assert (Hdev : forall d x, connectionsByDeviceID s2 !! d = Some x ->
                             connectionsByDeviceID s !! d = Some x).
  { subst s2. intros d x. destruct (connectionsByDeviceID s !! deviceID (h c));
      [apply (removeConnection_byDevice_mono h s1) | tauto]. }
  assert (Huser : forall u d x, userSlot s2 u d = Some x ->
            userSlot s u d = Some x
            /\ forall before,
                 connectionsByDeviceID s !! deviceID (h c) = Some before ->
                 is_Some (connectionsByID s !! id (h before)) ->
                 userID (h before) <> "" ->
                 ~ (u = userID (h before) /\ d = deviceID (h before))).
  { subst s2. intros u d x.
    destruct (connectionsByDeviceID s !! deviceID (h c)) as [b|].
    - intros H. split; [apply (removeConnection_userSlot_mono h s1 b), H|].
      intros b' [= <-] Hin Hub [-> ->].
      destruct (removeConnection_clears h s1 b Hin Hub) as [_ Hnone].
      congruence.
    - intros H. split; [exact H|]. intros b' [=]. }
  eexists. split; [reflexivity|]. cbn [connectionsByID connectionsByDeviceID].
  split; [exact HbyID|]. split; [apply lookup_insert_eq|].
  split; [unfold userSlot; cbn [connectionsByUserID];
          rewrite lookup_insert_eq; simpl; apply lookup_insert_eq|].
  split.
  - intros d x Hd. rewrite lookup_insert_ne by congruence. apply Hdev.
  - intros u d x. unfold userSlot at 1. cbn [connectionsByUserID].
    destruct (decide (userID (h c) = u)) as [<-|Hne].
    + rewrite lookup_insert_eq. simpl.
      destruct (decide (deviceID (h c) = d)) as [<-|Hd].
      * rewrite lookup_insert_eq. intros [= <-]. left. auto.
      * rewrite lookup_insert_ne by exact Hd. intros H. right.
        apply Huser. unfold userSlot.
        destruct (connectionsByUserID s2 !! userID (h c)); simpl;
          [exact H | rewrite lookup_empty in H; discriminate].
    + rewrite lookup_insert_ne by exact Hne. intros H. right.
      apply Huser. exact H.
Qed.

(** [login] on a session without identity, with a token that passes the
    checks: the session is given the user of the claims and the
    configured device, [OnLogin] runs, whatever it returns is closed and
    unregistered, and [ok] is written. *)
Lemma login_unbound parse w c tokenBinary u :
  authenticates parse w tokenBinary u ->
  userID (store w c) = "" ->
  let h1 := <[c := loggedIn (store w c) u (RemoteAddr (config w))]> (store w) in
  exists w',
    login parse w c tokenBinary = Done w'
    /\ config w' = config w
    /\ match (OnLogin h1 (connections w) c).2 with
       | Some before =>
         store w' = <[before := closed (h1 before)]> h1
         /\ connections w'
            = removeConnection (<[before := closed (h1 before)]> h1)
                (OnLogin h1 (connections w) c).1 before
         /\ wire w'
            = (wire w ++ [SetReadLimit c 0] ++ evictionOf before
                 ++ [WriteMessage c TextMessage (Bytes "ok")])%list
       | None =>
         store w' = h1
         /\ connections w' = (OnLogin h1 (connections w) c).1
         /\ wire w'
            = (wire w ++ [SetReadLimit c 0]
                 ++ [WriteMessage c TextMessage (Bytes "ok")])%list
       end.
Proof.
  intros (idtoken & Hres & Herr & Hvalid & Hclaims) Hu h1.
  unfold login. rewrite Hres. cbn [negb]. unfold ParseJWT.
  cbn [pkgJWKS config]. rewrite Herr, Hvalid. cbn [orb negb].
  rewrite Hclaims. unfold GetInfo. cbn [store]. rewrite Hu. cbn [String.eqb negb].
  unfold Login. cbn [store connections with_store emit config].
  fold h1.
  destruct (OnLogin h1 (connections w) c) as [s' [before|]] eqn:E;
    cbn [fst snd]; eexists; (split; [reflexivity|]).
  - split; [reflexivity|]. unfold unregisterConnection, RemoveConnection, Close.
    cbn. rewrite <- !app_assoc. repeat split.
  - cbn. rewrite <- !app_assoc. repeat split.
Qed.

(** What a successful first login of session [c] does to the store, the
    wire and the three mappings; [before] is the session that held the
    device slot. *)
Lemma login_binds parse w c tokenBinary u :
  authenticates parse w tokenBinary u ->
  u <> "" ->
  userID (store w c) = "" ->
  ~ inByDevice (connections w) c ->
  let d := RemoteAddr (config w) in
  let before := connectionsByDeviceID (connections w) !! d in
  exists w',
    login parse w c tokenBinary = Done w'
    /\ config w' = config w
    /\ store w' c = loggedIn (store w c) u d
    /\ (forall x, x <> c -> before <> Some x -> store w' x = store w x)
    /\ (forall x, before = Some x -> store w' x = closed (store w x))
    /\ wire w'
       = (wire w ++ [SetReadLimit c 0] ++ from_option evictionOf [] before
            ++ [WriteMessage c TextMessage (Bytes "ok")])%list
    /\ connectionsByID (connections w')
       = match before with
         | Some p =>
           delete (-1) (delete (id (store w p))
                          (connectionsByID (connections w)))
         | None => connectionsByID (connections w)
         end
    /\ connectionsByDeviceID (connections w') !! d = Some c
    /\ userSlot (connections w') u d = Some c
    /\ (forall d' x,
          d' <> d ->
          connectionsByDeviceID (connections w') !! d' = Some x ->
          connectionsByDeviceID (connections w) !! d' = Some x)
    /\ (forall u' d' x,
          userSlot (connections w') u' d' = Some x ->
          (u' = u /\ d' = d /\ x = c)
          \/ (userSlot (connections w) u' d' = Some x
              /\ forall p,
                   before = Some p ->
                   is_Some (connectionsByID (connections w)
                              !! id (store w p)) ->
                   userID (store w p) <> "" ->
                   ~ (u' = userID (store w p)
                      /\ d' = deviceID (store w p)))).
Proof.
  intros Hauth Hu Hc Hdev d before.
  destruct (login_unbound parse w c tokenBinary u Hauth Hc)
    as (w' & Hlogin & Hcfg & Hrest).
  set (h1 := <[c := loggedIn (store w c) u (RemoteAddr (config w))]> (store w))
    in Hrest.
  assert (Hh1c : h1 c = loggedIn (store w c) u d)
    by (subst h1; apply fn_lookup_insert).
  assert (Hh1 : forall x, x <> c -> h1 x = store w x)
    by (intros x Hx; subst h1; apply fn_lookup_insert_ne; congruence).
  assert (Hbc : forall p, before = Some p -> p <> c).
  { intros p Hp ->. apply Hdev. exists d. exact Hp. }
  destruct (OnLogin_spec h1 (connections w) c) as (s' & Hon & HbyID & Hd & Hus & Hdm & Hum).
  { rewrite Hh1c. exact Hu. }
  rewrite Hh1c in Hon, HbyID, Hd, Hus, Hdm, Hum.
  cbn [loggedIn userID deviceID id] in Hon, HbyID, Hd, Hus, Hdm, Hum.
  fold d in Hon, HbyID, Hd, Hus, Hdm, Hum. fold before in Hon, HbyID, Hum.
  rewrite Hon in Hrest. cbn [fst snd] in Hrest.
  exists w'. split; [exact Hlogin|]. split; [exact Hcfg|].
  destruct before as [p|] eqn:Hbefore.
  - destruct Hrest as (Hstore & Hconn & Hwire).
    pose proof (Hbc p eq_refl) as Hpc.
    assert (Hclosed : (<[p := closed (h1 p)]> h1) p = closed (store w p))
      by (rewrite fn_lookup_insert, Hh1 by exact Hpc; reflexivity).
    destruct (removeConnection_no_identity (<[p := closed (h1 p)]> h1) s' p)
      as [HeqDev HeqUser]; [rewrite Hclosed; reflexivity|].
    assert (Hslot : forall u' d', userSlot (connections w') u' d'
                                  = userSlot s' u' d').
    { intros u' d'. unfold userSlot. rewrite Hconn, HeqUser. reflexivity. }
    split; [rewrite Hstore, fn_lookup_insert_ne by exact Hpc; exact Hh1c|].
    split; [intros x Hx Hxp; rewrite Hstore, fn_lookup_insert_ne by congruence;
            apply Hh1, Hx|].
    split; [intros x [= <-]; rewrite Hstore; exact Hclosed|].
    split; [exact Hwire|].
    split; [rewrite Hconn, removeConnection_byID, Hclosed, HbyID,
              (Hh1 p Hpc); reflexivity|].
    split; [rewrite Hconn, HeqDev; exact Hd|].
    split; [rewrite Hslot; exact Hus|].
    split; [intros d' x Hd'; rewrite Hconn, HeqDev; apply Hdm, Hd'|].
    intros u' d' x. rewrite Hslot. intros H.
    destruct (Hum u' d' x H) as [Hl | [Hr Hnot]]; [left; exact Hl|].
    right. split; [exact Hr|]. intros q [= <-].
    rewrite <- (Hh1 p Hpc). apply Hnot. reflexivity.
  - destruct Hrest as (Hstore & Hconn & Hwire). rewrite Hconn.
    split; [rewrite Hstore; exact Hh1c|].
    split; [intros x Hx _; rewrite Hstore; apply Hh1, Hx|].
    split; [intros x [=]|].
    split; [exact Hwire|].
    split; [exact HbyID|]. split; [exact Hd|]. split; [exact Hus|].
    split; [exact Hdm|].
    intros u' d' x H.
    destruct (Hum u' d' x H) as [Hl | [Hr _]]; [left; exact Hl|].
    right. split; [exact Hr|]. intros q [=].
Qed.

Lemma byID_after_eviction_kept w (before : option nat) x :
  newcomer w x ->
  (forall p, before = Some p -> p <> x) ->
  match before with
  | Some p =>
    delete (-1) (delete (id (store w p)) (connectionsByID (connections w)))
  | None => connectionsByID (connections w)
  end !! id (store w x) = Some x.
Proof.
  intros Hx Hne. pose proof (proj2 (nc_byID w x Hx _) eq_refl) as Hin.
  destruct before as [p|]; [|exact Hin].
  rewrite lookup_delete_ne by (symmetry; apply (nc_open w x Hx)).
  rewrite lookup_delete_ne by (apply (nc_unique w x Hx), Hne; reflexivity).
  exact Hin.
Qed.

Lemma byID_after_eviction_mono (m : gmap Z nat) (before : option nat)
    (key : nat -> Z) k x :
  match before with
  | Some p => delete (-1) (delete (key p) m)
  | None => m
  end !! k = Some x ->
  m !! k = Some x.
Proof.
  destruct before as [p|]; [|tauto].
  rewrite !lookup_delete_Some. tauto.
Qed.

(** C2. Two sessions [a] and [b], registered and not yet logged in, log
    in one after the other with tokens that pass the checks and name
    non-empty users. Both are bound to the configured device. After the
    first login [a] holds the device slot. The second login writes to
    [a] a close frame with the reason [OneConnectionPerDevice], closes
    its socket and writes [ok] to [b]; afterwards [a] is closed and in
    none of the three mappings, and [b] is open, holds its id, its user
    and the device, and is the entry of its id, of the device slot and
    of its user's slot for the device. *)
Theorem one_connection_per_device parse w a b tokenA tokenB uA uB :
  a <> b ->
  newcomer w a ->
  newcomer w b ->
  authenticates parse w tokenA uA ->
  uA <> "" ->
  authenticates parse w tokenB uB ->
  uB <> "" ->
  exists w1 w2,
    login parse w a tokenA = Done w1
    /\ login parse w1 b tokenB = Done w2
    /\ GetInfo (store w1) a = (id (store w a), uA, RemoteAddr (config w))
    /\ GetDeviceConnection (connections w1) (RemoteAddr (config w)) = Some a
    /\ wire w2
       = (wire w1 ++ [SetReadLimit b 0]
            ++ [WriteMessage a CloseMessage
                  (FormatCloseMessage CloseNormalClosure
                     "OneConnectionPerDevice");
                WsClose a]
            ++ [WriteMessage b TextMessage (Bytes "ok")])%list
    /\ GetInfo (store w2) a = (-1, "", "")
    /\ ~ inByID (connections w2) a
    /\ ~ inByUser (connections w2) a
    /\ ~ inByDevice (connections w2) a
    /\ GetInfo (store w2) b = (id (store w b), uB, RemoteAddr (config w))
    /\ GetConnectionByID (connections w2) (id (store w b)) = Some b
    /\ GetDeviceConnection (connections w2) (RemoteAddr (config w)) = Some b
    /\ userSlot (connections w2) uB (RemoteAddr (config w)) = Some b.
Proof.
  intros Hab Ha Hb HauthA HuA HauthB HuB.
  set (d := RemoteAddr (config w)).
  destruct (login_binds parse w a tokenA uA HauthA HuA
              (nc_unbound w a Ha) (nc_byDevice w a Ha))
    as (w1 & Hlogin1 & Hcfg1 & Hsa1 & Hsame1 & _ & _ & HbyID1 & Hdev1
        & _ & Hdm1 & Hum1).
  fold d in Hsa1, Hsame1, HbyID1, Hdev1, Hdm1, Hum1.
  set (before1 := connectionsByDeviceID (connections w) !! d) in *.
  assert (Hb1a : forall p, before1 = Some p -> p <> a).
  { intros p Hp ->. apply (nc_byDevice w a Ha). exists d. exact Hp. }
  assert (Hb1b : forall p, before1 = Some p -> p <> b).
  { intros p Hp ->. apply (nc_byDevice w b Hb). exists d. exact Hp. }
  assert (Hsb1 : store w1 b = store w b).
  { apply Hsame1; [congruence|]. intros H. exact (Hb1b b H eq_refl). }
  assert (HbyID1a : connectionsByID (connections w1) !! id (store w a) = Some a)
    by (rewrite HbyID1; apply byID_after_eviction_kept; assumption).
  assert (HbyID1b : connectionsByID (connections w1) !! id (store w b) = Some b)
    by (rewrite HbyID1; apply byID_after_eviction_kept; assumption).
  assert (Hdevb1 : ~ inByDevice (connections w1) b).
  { intros [d' Hd']. destruct (decide (d' = d)) as [->|Hne].
    - congruence.
    - apply (nc_byDevice w b Hb). exists d'. apply Hdm1; assumption. }
  assert (HauthB1 : authenticates parse w1 tokenB uB).
  { unfold authenticates. rewrite Hcfg1. exact HauthB. }
  destruct (login_binds parse w1 b tokenB uB HauthB1 HuB)
    as (w2 & Hlogin2 & Hcfg2 & Hsb2 & _ & Hclosed2 & Hwire2 & HbyID2 & Hdev2
        & Hus2 & Hdm2 & Hum2).
  { rewrite Hsb1. apply (nc_unbound w b Hb). }
  { exact Hdevb1. }
  rewrite Hcfg1 in Hsb2, Hclosed2, Hwire2, HbyID2, Hdev2, Hus2, Hdm2, Hum2.
  fold d in Hsb2, Hclosed2, Hwire2, HbyID2, Hdev2, Hus2, Hdm2, Hum2.
  rewrite Hdev1 in Hclosed2, Hwire2, HbyID2, Hum2.
  rewrite Hsa1 in HbyID2. cbn [loggedIn id] in HbyID2.
  exists w1, w2. split; [exact Hlogin1|]. split; [exact Hlogin2|].
  split; [unfold GetInfo; rewrite Hsa1; reflexivity|].
  split; [exact Hdev1|].
  split; [exact Hwire2|].
  split; [unfold GetInfo; rewrite (Hclosed2 a eq_refl); reflexivity|].
  split.
  { intros [k Hk]. rewrite HbyID2 in Hk.
    apply lookup_delete_Some in Hk as [_ Hk].
    apply lookup_delete_Some in Hk as [Hne Hk].
    rewrite HbyID1 in Hk. apply byID_after_eviction_mono in Hk.
    apply (nc_byID w a Ha) in Hk. congruence. }
  split.
  { intros Hin. apply inByUser_userSlot in Hin as (u' & d' & Hslot).
    destruct (Hum2 u' d' a Hslot) as [(_ & _ & Heq) | [Hslot1 Hnot]];
      [congruence|].
    specialize (Hnot a eq_refl).
    rewrite Hsa1 in Hnot. cbn [loggedIn id userID deviceID] in Hnot.
    destruct (Hum1 u' d' a Hslot1) as [(-> & -> & _) | [Hslot0 _]].
    - apply Hnot; [eexists; exact HbyID1a | exact HuA | split; reflexivity].
    - apply (nc_byUser w a Ha). apply inByUser_userSlot. eauto. }
  split.
  { intros [d' Hd']. destruct (decide (d' = d)) as [->|Hne].
    - rewrite Hdev2 in Hd'. congruence.
    - apply (nc_byDevice w a Ha). exists d'.
      apply Hdm1; [exact Hne|]. apply Hdm2; assumption. }
  split; [unfold GetInfo; rewrite Hsb2, Hsb1; reflexivity|].
  split.
  { unfold GetConnectionByID. rewrite HbyID2.
    rewrite lookup_delete_ne by (symmetry; apply (nc_open w b Hb)).
    rewrite lookup_delete_ne by (apply (nc_unique w b Hb); exact Hab).
    exact HbyID1b. }
  split; [exact Hdev2 | exact Hus2].
Qed.

Lemma two_byID :
  connectionsByID (connections Fixture.two) = <[2 := 1%nat]> (<[1 := 0%nat]> ∅).
Proof. vm_compute. reflexivity. Qed.

Lemma two_newcomer_0 : newcomer Fixture.two 0.
Proof.
  split.
  - vm_compute. discriminate.
  - reflexivity.
  - intros k. rewrite two_byID. change (id (store Fixture.two 0)) with 1.
    rewrite !lookup_insert_Some, lookup_empty. split.
    + intros [[_ [=]] | [_ [[-> _] | [_ [=]]]]]. reflexivity.
    + intros ->. right. split; [discriminate|]. left. split; reflexivity.
  - intros (u & m & d & Hu & _). vm_compute in Hu. discriminate.
  - intros (d & Hd). vm_compute in Hd. discriminate.
  - intros c' Hc'. destruct c' as [|[|c']]; [congruence| |]; vm_compute;
      discriminate.
Qed.

Lemma two_newcomer_1 : newcomer Fixture.two 1.
Proof.
  split.
  - vm_compute. discriminate.
  - reflexivity.
  - intros k. rewrite two_byID. change (id (store Fixture.two 1)) with 2.
    rewrite !lookup_insert_Some, lookup_empty. split.
    + intros [[-> _] | [_ [[_ [=]] | [_ [=]]]]]. reflexivity.
    + intros ->. left. split; reflexivity.
  - intros (u & m & d & Hu & _). vm_compute in Hu. discriminate.
  - intros (d & Hd). vm_compute in Hd. discriminate.
  - intros c' Hc'. destruct c' as [|[|c']]; [|congruence|]; vm_compute;
      discriminate.
Qed.

Lemma alice_authenticates w :
  authenticates Fixture.parse w "Bearer alice" "alice".
Proof. exists "alice". repeat split. Qed.

Lemma bob_authenticates w :
  authenticates Fixture.parse w "Bearer bob" "bob".
Proof. exists "bob". repeat split. Qed.

Lemma one_connection_per_device_witness :
  exists w1 w2,
    login Fixture.parse Fixture.two 0%nat "Bearer alice" = Done w1
    /\ login Fixture.parse w1 1%nat "Bearer bob" = Done w2
    /\ GetInfo (store w2) 0 = (-1, "", "")
    /\ ~ inByID (connections w2) 0
    /\ ~ inByUser (connections w2) 0
    /\ ~ inByDevice (connections w2) 0
    /\ GetInfo (store w2) 1 = (2, "bob", "10.0.0.1")
    /\ GetDeviceConnection (connections w2) "10.0.0.1" = Some 1%nat.
Proof.
  destruct (one_connection_per_device Fixture.parse Fixture.two 0%nat 1%nat
              "Bearer alice" "Bearer bob" "alice" "bob")
    as (w1 & w2 & H1 & H2 & _ & _ & _ & Ha & HnID & HnU & HnD & Hb & _ & Hd & _).
  - discriminate.
  - exact two_newcomer_0.
  - exact two_newcomer_1.
  - apply alice_authenticates.
  - discriminate.
  - apply bob_authenticates.
  - discriminate.
  - exists w1, w2. repeat split; assumption.
Defined.

(** C7. A session that holds an identity, with the device the gateway
    binds every session to, sends a login frame whose token passes the
    checks. If the user of the token is the user of the session, that
    is, if the resolved identity is the identity of the session, the
    one frame [ok] is written; if not, the one frame [go away]. In both
    cases the registry and the store of the sessions are as before. *)
Theorem relogin parse w c tokenBinary u :
  authenticates parse w tokenBinary u ->
  userID (store w c) <> "" ->
  deviceID (store w c) = RemoteAddr (config w) ->
  exists w',
    login parse w c tokenBinary = Done w'
    /\ connections w' = connections w
    /\ store w' = store w
    /\ wire w'
       = (wire w
            ++ [WriteMessage c TextMessage
                  (Bytes
                     (if decide ((userID (store w c), deviceID (store w c))
                                 = (u, RemoteAddr (config w)))
                      then "ok" else "go away"))])%list.
Proof.
  intros (idtoken & Hres & Herr & Hvalid & Hclaims) Hu Hd.
  unfold login. rewrite Hres. cbn [negb]. unfold ParseJWT.
  cbn [pkgJWKS config]. rewrite Herr, Hvalid. cbn [orb negb].
  rewrite Hclaims. unfold GetInfo. cbn [store].
  apply String.eqb_neq in Hu. rewrite Hu. cbn [negb].
  destruct (String.eqb (userID (store w c)) u) eqn:E; cbn [negb];
    eexists; (split; [reflexivity|]); cbn; repeat split.
  - apply String.eqb_eq in E. rewrite decide_True by congruence. reflexivity.
  - apply String.eqb_neq in E. rewrite decide_False by congruence.
    reflexivity.
Qed.

Lemma relogin_witness :
  userID (store Fixture.aliceIn 0) <> ""
  /\ deviceID (store Fixture.aliceIn 0) = RemoteAddr (config Fixture.aliceIn)
  /\ (exists w',
        login Fixture.parse Fixture.aliceIn 0%nat "Bearer alice" = Done w'
        /\ connections w' = connections Fixture.aliceIn
        /\ store w' = store Fixture.aliceIn
        /\ wire w'
           = (wire Fixture.aliceIn
                ++ [WriteMessage 0 TextMessage (Bytes "ok")])%list)
  /\ (exists w',
        login Fixture.parse Fixture.aliceIn 0%nat "Bearer bob" = Done w'
        /\ connections w' = connections Fixture.aliceIn
        /\ store w' = store Fixture.aliceIn
        /\ wire w'
           = (wire Fixture.aliceIn
                ++ [WriteMessage 0 TextMessage (Bytes "go away")])%list).
Proof.
  assert (Hu : userID (store Fixture.aliceIn 0) <> "")
    by (vm_compute; discriminate).
  assert (Hd : deviceID (store Fixture.aliceIn 0)
               = RemoteAddr (config Fixture.aliceIn)) by reflexivity.
  split; [exact Hu|]. split; [exact Hd|]. split.
  - exact (relogin Fixture.parse Fixture.aliceIn 0%nat "Bearer alice" "alice"
             (alice_authenticates _) Hu Hd).
  - exact (relogin Fixture.parse Fixture.aliceIn 0%nat "Bearer bob" "bob"
             (bob_authenticates _) Hu Hd).
Defined.

(** ** More of the registry *)

Lemma wrap64_id z : - 2 ^ 63 <= z < 2 ^ 63 -> wrap64 z = z.
Proof. intros H. unfold wrap64. rewrite Z.mod_small; lia. Qed.

Lemma wrap64_range z : - 2 ^ 63 <= wrap64 z < 2 ^ 63.
Proof.
  unfold wrap64. pose proof (Z.mod_pos_bound (z + 2 ^ 63) (2 ^ 64)). lia.
Qed.

Lemma wrap64_add z k : wrap64 (wrap64 z + k) = wrap64 (z + k).
Proof.
  unfold wrap64. f_equal.
  replace ((z + 2 ^ 63) mod 2 ^ 64 - 2 ^ 63 + k + 2 ^ 63)
    with ((z + 2 ^ 63) mod 2 ^ 64 + k) by lia.
  replace (z + k + 2 ^ 63) with (z + 2 ^ 63 + k) by lia.
  rewrite Zplus_mod_idemp_l. reflexivity.
Qed.

(** X1. Removing a connection twice is removing it once. *)
Theorem removeConnection_idempotent h s c :
  removeConnection h (removeConnection h s c) c = removeConnection h s c.
Proof.
  unfold removeConnection at 1. unfold GetInfo.
  rewrite removeConnection_byID, lookup_delete_eq. reflexivity.
Qed.

(** X2. A connection without identity whose id is free in the by-id
    mapping is added and removed again: the registry is as it was, the
    count included, as long as the count was an [int] to begin with. *)
Theorem add_then_remove h s c :
  connectionsByID s !! id (h c) = None ->
  userID (h c) = "" ->
  - 2 ^ 63 <= numberOfNotLoggedConnections s < 2 ^ 63 ->
  removeConnection h (AddNewConnection h s c) c = s.
Proof.
  intros Hfree Hu Hn. unfold removeConnection, AddNewConnection, GetInfo.
  cbn [connectionsByID connectionsByUserID connectionsByDeviceID
       numberOfNotLoggedConnections].
  rewrite lookup_insert_eq, Hu. cbn [String.eqb].
  rewrite delete_insert_id by exact Hfree.
  replace (wrap64 (numberOfNotLoggedConnections s + 1) - 1)
    with (wrap64 (numberOfNotLoggedConnections s + 1) + -1) by lia.
  rewrite wrap64_add.
  replace (numberOfNotLoggedConnections s + 1 + -1)
    with (numberOfNotLoggedConnections s) by lia.
  rewrite wrap64_id by exact Hn. destruct s; reflexivity.
Qed.

Lemma add_then_remove_witness :
  removeConnection (store Fixture.one)
    (AddNewConnection (store Fixture.one) NewConnectionsStorage 0%nat) 0%nat
  = NewConnectionsStorage.
Proof.
  apply (add_then_remove (store Fixture.one) NewConnectionsStorage 0%nat).
  - reflexivity.
  - reflexivity.
  - cbn. lia.
Defined.

(** X3. [contains] is membership in the slice. *)
Theorem contains_In source target :
  contains source target = true <-> In target source.
Proof.
  induction source as [|element rest IH]; simpl.
  - split; [discriminate | tauto].
  - destruct (String.eqb element target) eqn:E.
    + apply String.eqb_eq in E. tauto.
    + apply String.eqb_neq in E. rewrite IH. split; [tauto|].
      intros [H|H]; [congruence | exact H].
Qed.

(** ** More of [ResolveIDToken] *)

Lemma prefix_append sep t : String.prefix sep (sep ++ t) = true.
Proof.
  induction sep as [|a sep IH]; [apply prefix_empty|].
  change (String a sep ++ t) with (String a (sep ++ t)). cbn [String.prefix].
  destruct (ascii_dec a a); [exact IH | congruence].
Qed.

Lemma index_append sep t : sep <> "" -> index 0 sep (sep ++ t) = Some 0%nat.
Proof.
  destruct sep as [|a sep]; [congruence|]. intros _.
  change (String a sep ++ t) with (String a (sep ++ t)).
  cbn [index]. change (String a (sep ++ t)) with (String a sep ++ t).
  rewrite prefix_append. reflexivity.
Qed.

Lemma substring_0_0 s : substring 0 0 s = "".
Proof. destruct s; reflexivity. Qed.

Lemma substring_whole s : substring 0 (String.length s) s = s.
Proof. induction s as [|a s IH]; simpl; [reflexivity | rewrite IH; reflexivity]. Qed.

Lemma substring_after sep t :
  substring (String.length sep) (String.length t) (sep ++ t) = t.
Proof. induction sep as [|a sep IH]; simpl; [apply substring_whole | exact IH]. Qed.

Lemma length_append_string s t :
  String.length (s ++ t) = (String.length s + String.length t)%nat.
Proof. induction s as [|a s IH]; simpl; [reflexivity | rewrite IH; reflexivity]. Qed.

Lemma genSplit_no_sep fuel s sep :
  index 0 sep s = None -> genSplit fuel s sep = [s].
Proof. intros H. destruct fuel; cbn [genSplit]; [|rewrite H]; reflexivity. Qed.

(** X4. A token made of the scheme [Bearer ] and a rest that does not
    hold the scheme again is valid, and the rest is the id token. *)
Theorem ResolveIDToken_Bearer t :
  index 0 "Bearer " t = None ->
  ResolveIDToken ("Bearer " ++ t) = (t, true).
Proof.
  intros Hnone. unfold ResolveIDToken, Split.
  rewrite length_append_string.
  change (String.length "Bearer " + String.length t)%nat
    with (S (6 + String.length t)).
  cbn [genSplit]. rewrite index_append by discriminate.
  rewrite substring_0_0.
  replace (String.length ("Bearer " ++ t) - (0 + String.length "Bearer "))%nat
    with (String.length t)
    by (rewrite length_append_string; lia).
  change (0 + String.length "Bearer ")%nat with (String.length "Bearer ").
  rewrite substring_after, genSplit_no_sep by exact Hnone.
  reflexivity.
Qed.

Lemma ResolveIDToken_Bearer_witness :
  ResolveIDToken ("Bearer " ++ "eyJ0eXAi.eyJuYW1l.BRSOFCH6") 
  = ("eyJ0eXAi.eyJuYW1l.BRSOFCH6", true).
Proof.
  apply (ResolveIDToken_Bearer "eyJ0eXAi.eyJuYW1l.BRSOFCH6"). reflexivity.
Defined.

(** X5. A token that does not hold the scheme [Bearer ] anywhere, the
    empty token included, is not valid. *)
Theorem ResolveIDToken_no_scheme token :
  index 0 "Bearer " token = None ->
  ResolveIDToken token = ("", false).
Proof.
  intros Hnone. unfold ResolveIDToken, Split.
  rewrite genSplit_no_sep by exact Hnone. reflexivity.
Qed.

Lemma ResolveIDToken_no_scheme_witness :
  ResolveIDToken "" = ("", false)
  /\ ResolveIDToken "bearer abc" = ("", false)
  /\ ResolveIDToken "Bearerabc" = ("", false).
Proof.
  split; [|split].
  - apply (ResolveIDToken_no_scheme ""). reflexivity.
  - apply (ResolveIDToken_no_scheme "bearer abc"). reflexivity.
  - apply (ResolveIDToken_no_scheme "Bearerabc"). reflexivity.
Defined.

(** ** The invariant of the registry *)

Lemma removeConnection_absent h s p :
  connectionsByID s !! id (h p) = None -> removeConnection h s p = s.
Proof. intros H. unfold removeConnection, GetInfo. rewrite H. reflexivity. Qed.

Lemma removeConnection_unbound h s p x :
  connectionsByID s !! id (h p) = Some x ->
  userID (h p) = "" ->
  removeConnection h s p
  = {| connectionsByID := delete (id (h p)) (connectionsByID s);
       connectionsByUserID := connectionsByUserID s;
       connectionsByDeviceID := connectionsByDeviceID s;
       numberOfNotLoggedConnections :=
         wrap64 (numberOfNotLoggedConnections s - 1) |}.
Proof.
  intros H Hu. unfold removeConnection, GetInfo. rewrite H, Hu. reflexivity.
Qed.

Lemma removeConnection_bound_byDevice h s p x :
  connectionsByID s !! id (h p) = Some x ->
  userID (h p) <> "" ->
  connectionsByDeviceID (removeConnection h s p)
  = delete (deviceID (h p)) (connectionsByDeviceID s).
Proof.
  intros H Hu. apply String.eqb_neq in Hu.
  unfold removeConnection, GetInfo. rewrite H, Hu. simpl.
  destruct (connectionsByDeviceID s !! deviceID (h p)) eqn:E;
    [reflexivity | symmetry; apply delete_id, E].
Qed.

Lemma removeConnection_bound_counter h s p x :
  connectionsByID s !! id (h p) = Some x ->
  userID (h p) <> "" ->
  numberOfNotLoggedConnections (removeConnection h s p)
  = numberOfNotLoggedConnections s.
Proof.
  intros H Hu. apply String.eqb_neq in Hu.
  unfold removeConnection, GetInfo. rewrite H, Hu. reflexivity.
Qed.

Lemma removeConnection_bound_userSlot h s p x u d :
  connectionsByID s !! id (h p) = Some x ->
  userID (h p) <> "" ->
  userSlot (removeConnection h s p) u d
  = if decide (u = userID (h p) /\ d = deviceID (h p)) then None
    else userSlot s u d.
Proof.
  intros H Hu. apply String.eqb_neq in Hu.
  unfold removeConnection, GetInfo. rewrite H, Hu.
  unfold userSlot. cbn [connectionsByUserID].
  destruct (connectionsByUserID s !! userID (h p)) as [m|] eqn:Em.
  - destruct (size (delete (deviceID (h p)) m) =? 0)%nat eqn:Esize.
    + apply Nat.eqb_eq, map_size_empty_inv in Esize.
      destruct (decide (u = userID (h p))) as [->|Hne].
      * rewrite lookup_delete_eq, Em. simpl.
        case_decide as Hd; [reflexivity|].
        assert (d <> deviceID (h p)) by tauto.
        rewrite <- (lookup_delete_ne m (deviceID (h p)) d) by congruence.
        rewrite Esize. symmetry. apply lookup_empty.
      * rewrite lookup_delete_ne by congruence.
        rewrite decide_False by tauto. reflexivity.
    + destruct (decide (u = userID (h p))) as [->|Hne].
      * rewrite lookup_insert_eq, Em. simpl.
        case_decide as Hd.
        -- destruct Hd as [_ ->]. apply lookup_delete_eq.
        -- apply lookup_delete_ne. intros <-. tauto.
      * rewrite lookup_insert_ne by congruence.
        rewrite decide_False by tauto. reflexivity.
  - case_decide as Hd; [|reflexivity].
    destruct Hd as [-> ->]. rewrite Em. reflexivity.
Qed.

Lemma removeConnection_users h s p :
  (forall u m, connectionsByUserID s !! u = Some m -> m <> ∅) ->
  forall u m,
    connectionsByUserID (removeConnection h s p) !! u = Some m -> m <> ∅.
Proof.
  intros Hs u m. unfold removeConnection, GetInfo.
  destruct (connectionsByID s !! id (h p)); [|apply Hs].
  destruct (String.eqb (userID (h p)) ""); [apply Hs|].
  cbn [connectionsByUserID].
  destruct (connectionsByUserID s !! userID (h p)) as [m0|]; [|apply Hs].
  destruct (size (delete (deviceID (h p)) m0) =? 0)%nat eqn:Esize.
  - rewrite lookup_delete_Some. intros [_ H]. apply (Hs u m H).
  - apply Nat.eqb_neq in Esize. rewrite lookup_insert_Some.
    intros [[_ <-] | [_ H]]; [|apply (Hs u m H)].
    apply map_size_non_empty_iff, Esize.
Qed.

(** The by-id entries without user, as the store sees them. *)
Lemma notLoggedByID_ext h h' s :
  (forall k x, connectionsByID s !! k = Some x -> userID (h' x) = userID (h x)) ->
  notLoggedByID h' s = notLoggedByID h s.
Proof.
  intros Hsame. unfold notLoggedByID. do 2 f_equal.
  apply map_filter_ext. intros k x Hk. simpl. rewrite (Hsame k x Hk).
  reflexivity.
Qed.

Lemma RegInv_unknown h s c :
  RegInv h s -> connectionsByID s !! id (h c) <> Some c -> unknown s c.
Proof.
  intros Hinv Hc.
  assert (HnID : ~ inByID s c).
  { intros [k Hk]. destruct (inv_key h s Hinv k c Hk) as [<- _]. tauto. }
  assert (HnU : forall u d, userSlot s u d <> Some c).
  { intros u d H. apply (inv_slot h s Hinv) in H. tauto. }
  split; [exact HnID|]. split.
  - intros H. apply inByUser_userSlot in H as (u & d & H). exact (HnU u d H).
  - intros [d H]. apply (inv_device h s Hinv) in H. exact (HnU _ _ H).
Qed.

Lemma RegInv_new h : RegInv h NewConnectionsStorage.
Proof.
  split; cbn.
  - intros k x H. rewrite lookup_empty in H. discriminate.
  - unfold userSlot. cbn. intros u d x. rewrite lookup_empty. discriminate.
  - intros d x H. rewrite lookup_empty in H. discriminate.
  - intros k x H. rewrite lookup_empty in H. discriminate.
  - intros u m H. rewrite lookup_empty in H. discriminate.
  - reflexivity.
Qed.

Lemma RegInv_store h s c k :
  RegInv h s -> unknown s c -> RegInv (<[c := k]> h) s.
Proof.
  intros Hinv (HnID & HnU & HnD).
  assert (Hother : forall x, x <> c -> (<[c := k]> h) x = h x)
    by (intros x Hx; apply fn_lookup_insert_ne; congruence).
  assert (HID : forall k0 x, connectionsByID s !! k0 = Some x -> x <> c)
    by (intros k0 x H ->; apply HnID; eexists; exact H).
  assert (HU : forall u d x, userSlot s u d = Some x -> x <> c).
  { intros u d x H ->. apply HnU, inByUser_userSlot. eauto. }
  assert (HD : forall d x, connectionsByDeviceID s !! d = Some x -> x <> c)
    by (intros d x H ->; apply HnD; eexists; exact H).
  split.
  - intros k0 x H. rewrite (Hother x (HID _ _ H)). apply (inv_key h s Hinv), H.
  - intros u d x H. rewrite (Hother x (HU _ _ _ H)).
    apply (inv_slot h s Hinv), H.
  - intros d x H. rewrite (Hother x (HD _ _ H)). apply (inv_device h s Hinv), H.
  - intros k0 x H. rewrite (Hother x (HID _ _ H)).
    apply (inv_logged h s Hinv k0), H.
  - apply (inv_users h s Hinv).
  - rewrite (inv_count h s Hinv). f_equal. symmetry.
    apply notLoggedByID_ext. intros k0 x H. rewrite (Hother x (HID _ _ H)).
    reflexivity.
Qed.

Lemma size_delete_Z (m : gmap Z nat) k x :
  m !! k = Some x ->
  Z.of_nat (size (delete k m)) = Z.of_nat (size m) - 1.
Proof.
  intros H. rewrite <- (insert_delete_id m k x H) at 2.
  rewrite map_size_insert_None by apply lookup_delete_eq. lia.
Qed.

Lemma RegInv_add h s c :
  RegInv h s ->
  connectionsByID s !! id (h c) = None ->
  id (h c) <> -1 ->
  userID (h c) = "" ->
  RegInv h (AddNewConnection h s c).
Proof.
  intros Hinv Hfree Hopen Hu.
  assert (Hkeep : forall k x, connectionsByID s !! k = Some x ->
            connectionsByID (AddNewConnection h s c) !! k = Some x).
  { intros k x H. cbn. rewrite lookup_insert_ne; [exact H|]. congruence. }
  split.
  - intros k x. cbn. rewrite lookup_insert_Some.
    intros [[<- <-] | [_ H]]; [tauto | apply (inv_key h s Hinv), H].
  - intros u d x H. change (userSlot s u d = Some x) in H.
    destruct (inv_slot h s Hinv u d x H) as (? & ? & ? & HID & ?).
    repeat split; try assumption. apply Hkeep, HID.
  - intros d x H. apply (inv_device h s Hinv d x), H.
  - intros k x. cbn. rewrite lookup_insert_Some.
    intros [[_ <-] | [_ H]]; [congruence | apply (inv_logged h s Hinv k), H].
  - apply (inv_users h s Hinv).
  - cbn [AddNewConnection numberOfNotLoggedConnections].
    rewrite (inv_count h s Hinv), wrap64_add. f_equal.
    unfold notLoggedByID. cbn [AddNewConnection connectionsByID].
    rewrite map_filter_insert_True by exact Hu.
    rewrite map_size_insert_None; [lia|].
    apply map_lookup_filter_None. left. exact Hfree.
Qed.

Lemma RegInv_remove h s c :
  RegInv h s ->
  connectionsByID s !! id (h c) = Some c
  \/ connectionsByID s !! id (h c) = None ->
  RegInv h (removeConnection h s c).
Proof.
  intros Hinv [Hc | Hc]; [|rewrite removeConnection_absent by exact Hc; exact Hinv].
  assert (Hkeep : forall k x, connectionsByID s !! k = Some x -> x <> c ->
            connectionsByID (removeConnection h s c) !! k = Some x).
  { intros k x H Hx. rewrite removeConnection_byID, lookup_delete_ne; [exact H|].
    intros <-. congruence. }
  assert (Hmono : forall k x,
            connectionsByID (removeConnection h s c) !! k = Some x ->
            connectionsByID s !! k = Some x /\ x <> c).
  { intros k x. rewrite removeConnection_byID, lookup_delete_Some.
    intros [Hk H]. split; [exact H|]. intros ->.
    destruct (inv_key h s Hinv k c H) as [Heq _]. congruence. }
  destruct (decide (userID (h c) = "")) as [Hu | Hu].
  - (* a connection without user: the by-id entry and the count *)
    assert (HnotC : forall u d x, userSlot s u d = Some x -> x <> c).
    { intros u d x H ->. apply (inv_slot h s Hinv) in H. intuition congruence. }
    pose proof (removeConnection_unbound h s c c Hc Hu) as Heq.
    split.
    + intros k x H. apply Hmono in H as [H _]. apply (inv_key h s Hinv), H.
    + intros u d x. rewrite Heq. intros H. change (userSlot s u d = Some x) in H.
      destruct (inv_slot h s Hinv u d x H) as (? & ? & ? & HID & ?).
      repeat split; try assumption.
      rewrite <- Heq. apply Hkeep; [exact HID | exact (HnotC u d x H)].
    + rewrite Heq. intros d x H. apply (inv_device h s Hinv d x), H.
    + intros k x H Hx. apply Hmono in H as [H _]. rewrite Heq.
      apply (inv_logged h s Hinv k x H Hx).
    + rewrite Heq. apply (inv_users h s Hinv).
    + rewrite Heq at 1. cbn [numberOfNotLoggedConnections].
      rewrite (inv_count h s Hinv).
      replace (wrap64 (notLoggedByID h s) - 1)
        with (wrap64 (notLoggedByID h s) + -1) by lia.
      rewrite wrap64_add. f_equal. unfold notLoggedByID.
      rewrite removeConnection_byID, map_filter_delete.
      rewrite (size_delete_Z _ _ c); [lia|].
      apply map_lookup_filter_Some. split; [exact Hc | exact Hu].
  - (* a connection with a user: the three mappings *)
    pose proof (inv_logged h s Hinv _ c Hc Hu) as HcD.
    pose proof (inv_device h s Hinv _ c HcD) as HcU.
    assert (Hslot : forall u d x,
              userSlot (removeConnection h s c) u d = Some x ->
              userSlot s u d = Some x /\ x <> c).
    { intros u d x. rewrite (removeConnection_bound_userSlot h s c c) by assumption.
      case_decide as Hud; [discriminate|]. intros H. split; [exact H|].
      intros ->. apply (inv_slot h s Hinv) in H. apply Hud. intuition congruence. }
    assert (Hdev : forall d x,
              connectionsByDeviceID (removeConnection h s c) !! d = Some x ->
              connectionsByDeviceID s !! d = Some x /\ d <> deviceID (h c)).
    { intros d x. rewrite (removeConnection_bound_byDevice h s c c) by assumption.
      rewrite lookup_delete_Some. intros [Hd H]. split; [exact H | congruence]. }
    split.
    + intros k x H. apply Hmono in H as [H _]. apply (inv_key h s Hinv), H.
    + intros u d x H. apply Hslot in H as [H Hx].
      destruct (inv_slot h s Hinv u d x H) as (? & ? & ? & HID & HD).
      repeat split; try assumption.
      * apply Hkeep; assumption.
      * rewrite (removeConnection_bound_byDevice h s c c) by assumption.
        rewrite lookup_delete_ne; [exact HD|].
        intros <-. rewrite HcD in HD. congruence.
    + intros d x H. apply Hdev in H as [H Hd].
      rewrite (removeConnection_bound_userSlot h s c c) by assumption.
      rewrite decide_False by tauto. apply (inv_device h s Hinv d x), H.
    + intros k x H Hx. apply Hmono in H as [H Hxc].
      pose proof (inv_logged h s Hinv k x H Hx) as HD.
      rewrite (removeConnection_bound_byDevice h s c c) by assumption.
      rewrite lookup_delete_ne; [exact HD|].
      intros Heq. rewrite <- Heq, HcD in HD. congruence.
    + apply removeConnection_users, (inv_users h s Hinv).
    + rewrite (removeConnection_bound_counter h s c c) by assumption.
      rewrite (inv_count h s Hinv). f_equal. unfold notLoggedByID.
      rewrite removeConnection_byID, map_filter_delete, delete_id;
        [reflexivity|].
      apply map_lookup_filter_None. right. intros x Hx.
      rewrite Hc in Hx. injection Hx as <-. exact Hu.
Qed.

Lemma userSlot_insert (byUser : gmap string (gmap string nat)) u d c u' d' :
  <[u := <[d := c]> match byUser !! u with
                    | None => ∅
                    | Some userConnections => userConnections
                    end]> byUser !! u'
    ≫= (fun userConnections : gmap string nat => userConnections !! d')
  = if decide (u' = u /\ d' = d) then Some c
    else byUser !! u' ≫= (fun userConnections => userConnections !! d').
Proof.
  destruct (decide (u' = u)) as [->|Hu].
  - rewrite lookup_insert_eq. simpl.
    destruct (decide (d' = d)) as [->|Hd].
    + rewrite lookup_insert_eq, decide_True by tauto. reflexivity.
    + rewrite lookup_insert_ne by congruence. rewrite decide_False by tauto.
      destruct (byUser !! u); [reflexivity | apply lookup_empty].
  - rewrite lookup_insert_ne by congruence. rewrite decide_False by tauto.
    reflexivity.
Qed.

(** The registry after [OnLogin], in terms of the registry before, for
    a registered connection that has just been given a user. *)
Lemma OnLogin_registry h s c u d :
  RegInv h s ->
  connectionsByID s !! id (h c) = Some c ->
  userID (h c) = "" ->
  u <> "" ->
  let h' := <[c := loggedIn (h c) u d]> h in
  let s' := (OnLogin h' s c).1 in
  let before := connectionsByDeviceID s !! d in
  (forall k x, connectionsByID s' !! k = Some x <->
               connectionsByID s !! k = Some x /\ before <> Some x)
  /\ connectionsByDeviceID s' = <[d := c]> (connectionsByDeviceID s)
  /\ (forall u' d' x, userSlot s' u' d' = Some x <->
        (u' = u /\ d' = d /\ x = c)
        \/ (~ (u' = u /\ d' = d) /\ userSlot s u' d' = Some x
            /\ before <> Some x))
  /\ numberOfNotLoggedConnections s'
     = wrap64 (numberOfNotLoggedConnections s - 1)
  /\ (forall u' m, connectionsByUserID s' !! u' = Some m -> m <> ∅).
Proof.
  intros Hinv Hc Hu Hu' h' s' before. subst before.
  assert (Hh'c : h' c = loggedIn (h c) u d) by apply fn_lookup_insert.
  assert (Hh' : forall x, x <> c -> h' x = h x)
    by (intros x Hx; apply fn_lookup_insert_ne; congruence).
  subst s'. unfold OnLogin, GetInfo. rewrite Hh'c.
  cbn [loggedIn id userID deviceID].
  apply String.eqb_neq in Hu' as Hu'b. rewrite Hu'b.
  cbn [connectionsByDeviceID fst].
  set (s1 := {| connectionsByID := connectionsByID s;
                connectionsByUserID := connectionsByUserID s;
                connectionsByDeviceID := connectionsByDeviceID s;
                numberOfNotLoggedConnections :=
                  wrap64 (numberOfNotLoggedConnections s - 1) |}).
  cbn [connectionsByID connectionsByDeviceID connectionsByUserID
       numberOfNotLoggedConnections].
  unfold userSlot at 1. cbn [connectionsByUserID].
  setoid_rewrite userSlot_insert.
  destruct (connectionsByDeviceID s !! d) as [b|] eqn:Hb.
  - (* the device slot is taken by [b] *)
    pose proof (inv_device h s Hinv d b Hb) as HbU.
    destruct (inv_slot h s Hinv _ d b HbU) as (_ & HbD & HbUser & HbID & _).
    assert (Hbc : b <> c) by (intros ->; congruence).
    assert (HbID1 : connectionsByID s1 !! id (h' b) = Some b)
      by (rewrite (Hh' b Hbc); exact HbID).
    assert (HbU1 : userID (h' b) <> "") by (rewrite (Hh' b Hbc); exact HbUser).
    split; [|split; [|split; [|split]]].
    + intros k x. rewrite removeConnection_byID, lookup_delete_Some.
      rewrite (Hh' b Hbc). change (connectionsByID s1) with (connectionsByID s).
      split.
      * intros [Hk H]. split; [exact H|]. intros [= <-].
        destruct (inv_key h s Hinv k b H) as [Heq _]. congruence.
      * intros [H Hx]. split; [|exact H]. intros <-. congruence.
    + rewrite (removeConnection_bound_byDevice h' s1 b b HbID1 HbU1).
      rewrite (Hh' b Hbc), HbD. apply insert_delete_eq.
    + intros u' d' x.
      change (connectionsByUserID (removeConnection h' s1 b) !! u'
                ≫= (fun userConnections : gmap string nat =>
                      userConnections !! d'))
        with (userSlot (removeConnection h' s1 b) u' d').
      rewrite (removeConnection_bound_userSlot h' s1 b b _ _ HbID1 HbU1).
      rewrite (Hh' b Hbc), HbD.
      change (userSlot s1 u' d') with (userSlot s u' d').
      case_decide as Hud.
      * split; [intros [= <-]; left; tauto|].
        intros [(_ & _ & ->) | (Hn & _)]; [reflexivity | tauto].
      * case_decide as Hbslot.
        -- split; [discriminate|].
           intros [? | (_ & H & Hx)]; [tauto|].
           destruct Hbslot as [-> ->]. congruence.
        -- split.
           ++ intros H. right. split; [exact Hud|]. split; [exact H|].
              intros [= ->]. apply Hbslot.
              apply (inv_slot h s Hinv) in H. intuition congruence.
           ++ intros [? | (_ & H & _)]; [tauto | exact H].
    + rewrite (removeConnection_bound_counter h' s1 b b HbID1 HbU1).
      reflexivity.
    + intros u' m. rewrite lookup_insert_Some.
      intros [[_ <-] | [_ H]]; [apply insert_non_empty|].
      revert H. apply removeConnection_users. apply (inv_users h s Hinv).
  - (* the device slot is free *)
    split; [|split; [|split; [|split]]].
    + intros k x. cbn. split; [intros H; split; [exact H | discriminate] | tauto].
    + reflexivity.
    + intros u' d' x. change (userSlot s u' d' = Some x)
        with (connectionsByUserID s !! u'
                ≫= (fun userConnections : gmap string nat =>
                      userConnections !! d') = Some x).
      cbn [connectionsByUserID]. case_decide as Hud.
      * split; [intros [= <-]; left; tauto|].
        intros [(_ & _ & ->) | (Hn & _)]; [reflexivity | tauto].
      * split; [intros H; right; repeat split; [tauto | exact H | discriminate]|].
        intros [? | (_ & H & _)]; [tauto | exact H].
    + reflexivity.
    + intros u' m. cbn. rewrite lookup_insert_Some.
      intros [[_ <-] | [_ H]]; [apply insert_non_empty|].
      apply (inv_users h s Hinv u' m H).
Qed.

Lemma RegInv_login h s c u d :
  RegInv h s ->
  connectionsByID s !! id (h c) = Some c ->
  userID (h c) = "" ->
  u <> "" ->
  RegInv (<[c := loggedIn (h c) u d]> h)
         (OnLogin (<[c := loggedIn (h c) u d]> h) s c).1.
Proof.
  intros Hinv Hc Hu Hu'.
  destruct (OnLogin_registry h s c u d Hinv Hc Hu Hu')
    as (HbyID & HbyDevice & Hslot & Hcount & Husers).
  set (h' := <[c := loggedIn (h c) u d]> h) in *.
  set (s' := (OnLogin h' s c).1) in *.
  set (before := connectionsByDeviceID s !! d) in *.
  assert (Hh'c : h' c = loggedIn (h c) u d) by apply fn_lookup_insert.
  assert (Hh' : forall x, x <> c -> h' x = h x)
    by (intros x Hx; apply fn_lookup_insert_ne; congruence).
  assert (Hid : forall x, id (h' x) = id (h x)).
  { intros x. destruct (decide (x = c)) as [->|Hx];
      [rewrite Hh'c; reflexivity | rewrite Hh' by exact Hx; reflexivity]. }
  assert (HcU : forall u' d', userSlot s u' d' <> Some c).
  { intros u' d' H. apply (inv_slot h s Hinv) in H. intuition congruence. }
  assert (HcD : forall d', connectionsByDeviceID s !! d' <> Some c).
  { intros d' H. apply (inv_device h s Hinv) in H. exact (HcU _ _ H). }
  assert (Hholder : forall d' x,
            connectionsByDeviceID s !! d' = Some x ->
            deviceID (h x) = d' /\ userID (h x) <> "").
  { intros d' x H. apply (inv_device h s Hinv) in H.
    apply (inv_slot h s Hinv) in H. tauto. }
  split.
  - intros k x H. apply HbyID in H as [H _]. rewrite Hid.
    apply (inv_key h s Hinv), H.
  - intros u' d' x H. apply Hslot in H as [(-> & -> & ->) | (Hud & H & Hx)].
    + rewrite Hh'c. cbn [loggedIn userID deviceID id].
      repeat split; try assumption; try reflexivity.
      * apply HbyID. split; [exact Hc | apply HcD].
      * rewrite HbyDevice. apply lookup_insert_eq.
    + assert (x <> c) by (intros ->; exact (HcU _ _ H)).
      rewrite Hh' by assumption.
      destruct (inv_slot h s Hinv u' d' x H) as (? & ? & ? & HID & HD).
      repeat split; try assumption.
      * apply HbyID. split; assumption.
      * rewrite HbyDevice, lookup_insert_ne; [exact HD|].
        intros <-. apply Hx. exact HD.
  - intros d' x. rewrite HbyDevice, lookup_insert_Some.
    intros [[<- <-] | [Hd H]].
    + apply Hslot. left. rewrite Hh'c. repeat split.
    + assert (x <> c) by (intros ->; exact (HcD _ H)).
      rewrite Hh' by assumption. apply Hslot. right.
      split; [intros [_ ->]; congruence|].
      split; [apply (inv_device h s Hinv), H|].
      intros Hb. apply Hholder in Hb as [Hb _].
      apply Hholder in H as [H _]. congruence.
  - intros k x H Hx. apply HbyID in H as [H Hb].
    rewrite HbyDevice. destruct (decide (x = c)) as [->|Hxc].
    + rewrite Hh'c. apply lookup_insert_eq.
    + rewrite Hh' in Hx |- * by exact Hxc.
      pose proof (inv_logged h s Hinv k x H Hx) as HD.
      rewrite lookup_insert_ne; [exact HD|].
      intros Heq. apply Hb. unfold before. rewrite Heq. exact HD.
  - exact Husers.
  - rewrite Hcount, (inv_count h s Hinv).
    replace (wrap64 (notLoggedByID h s) - 1)
      with (wrap64 (notLoggedByID h s) + -1) by lia.
    rewrite wrap64_add. f_equal. unfold notLoggedByID.
    assert (Heq : filter (fun entry : Z * nat => userID (h' entry.2) = "")
                    (connectionsByID s')
                  = delete (id (h c))
                      (filter (fun entry : Z * nat => userID (h entry.2) = "")
                         (connectionsByID s))).
    { apply map_eq. intros k. apply option_eq. intros x.
      rewrite lookup_delete_Some, !map_lookup_filter_Some, HbyID. cbn [snd].
      split.
      - intros [[H Hb] Hx].
        assert (x <> c)
          by (intros ->; rewrite Hh'c in Hx; cbn in Hx; congruence).
        rewrite Hh' in Hx by assumption.
        split; [|tauto]. intros <-. congruence.
      - intros [Hk [H Hx]].
        assert (x <> c).
        { intros ->. destruct (inv_key h s Hinv k c H) as [Heq _]. congruence. }
        rewrite Hh' by assumption. split; [|exact Hx].
        split; [exact H|]. intros Hb. apply Hholder in Hb as [_ Hb]. tauto. }
    rewrite Heq, (size_delete_Z _ _ c); [lia|].
    apply map_lookup_filter_Some. split; [exact Hc | exact Hu].
Qed.

(** X6. Every registry that the operations build when they are used as
    the gateway uses them satisfies the invariant. *)
Theorem registry_invariant h s : reachable h s -> RegInv h s.
Proof.
  induction 1 as [h | h s c _ IH Hfree Hopen Hu | h s c u d _ IH Hc Hu Hu'
                  | h s c _ IH Hc | h s c k _ IH Hc].
  - apply RegInv_new.
  - apply RegInv_add; assumption.
  - apply RegInv_login; assumption.
  - apply RegInv_remove; assumption.
  - apply RegInv_store; assumption.
Qed.

(** ** The gateway and the invariant of the registry *)

Lemma OnLogin_before h s c :
  userID (h c) <> "" ->
  (OnLogin h s c).2 = connectionsByDeviceID s !! deviceID (h c).
Proof.
  intros Hu. destruct (OnLogin_spec h s c Hu) as (s' & Heq & _).
  rewrite Heq. reflexivity.
Qed.

(** X7. A registered session without user logs in with a token that
    passes the checks and names a non-empty user, on a registry that
    satisfies the invariant: the invariant holds afterwards, the session
    keeps its id and its by-id entry, holds the user of the token and
    the configured device and the slot of that device, and the session
    that held the slot before is closed and in none of the mappings. *)
Theorem login_RegInv parse w c tokenBinary u :
  RegInv (store w) (connections w) ->
  connectionsByID (connections w) !! id (store w c) = Some c ->
  userID (store w c) = "" ->
  authenticates parse w tokenBinary u ->
  u <> "" ->
  exists w',
    login parse w c tokenBinary = Done w'
    /\ RegInv (store w') (connections w')
    /\ GetInfo (store w') c = (id (store w c), u, RemoteAddr (config w))
    /\ GetConnectionByID (connections w') (id (store w c)) = Some c
    /\ GetDeviceConnection (connections w') (RemoteAddr (config w)) = Some c
    /\ forall before,
         GetDeviceConnection (connections w) (RemoteAddr (config w))
         = Some before ->
         GetInfo (store w') before = (-1, "", "")
         /\ unknown (connections w') before.
Proof.
  intros Hinv Hc Hu Hauth Hu'.
  destruct (login_unbound parse w c tokenBinary u Hauth Hu)
    as (w' & Hlogin & _ & Hrest).
  set (d := RemoteAddr (config w)) in *.
  set (h1 := <[c := loggedIn (store w c) u d]> (store w)) in *.
  set (s1 := (OnLogin h1 (connections w) c).1) in *.
  assert (Hh1c : h1 c = loggedIn (store w c) u d) by apply fn_lookup_insert.
  pose proof (RegInv_login (store w) (connections w) c u d Hinv Hc Hu Hu')
    as Hinv1. fold h1 s1 in Hinv1.
  destruct (OnLogin_registry (store w) (connections w) c u d Hinv Hc Hu Hu')
    as (HbyID & HbyDevice & _). fold h1 s1 in HbyID, HbyDevice.
  assert (HcD : connectionsByDeviceID (connections w) !! d <> Some c).
  { intros H. apply (inv_device _ _ Hinv) in H.
    apply (inv_slot _ _ Hinv) in H. intuition congruence. }
  rewrite OnLogin_before in Hrest by (rewrite Hh1c; exact Hu').
  rewrite Hh1c in Hrest. cbn [loggedIn deviceID] in Hrest.
  assert (Hfinal : connections w' = s1
                   /\ store w' c = h1 c
                   /\ forall before,
                        connectionsByDeviceID (connections w) !! d
                        = Some before ->
                        GetInfo (store w') before = (-1, "", "")
                        /\ unknown s1 before
                        /\ RegInv (store w') s1).
  { destruct (connectionsByDeviceID (connections w) !! d) as [b|] eqn:Hb.
    - destruct Hrest as (Hstore & Hconn & _).
      assert (Hbc : b <> c) by congruence.
      assert (Hunknown : unknown s1 b).
      { apply (RegInv_unknown h1 s1 b Hinv1). intros H.
        apply HbyID in H as [_ H]. congruence. }
      assert (Hinv2 : RegInv (store w') s1)
        by (rewrite Hstore; apply RegInv_store; assumption).
      split; [|split].
      + rewrite Hconn. apply removeConnection_absent.
        rewrite fn_lookup_insert. cbn [closed id].
        destruct (connectionsByID s1 !! (-1)) as [x|] eqn:E; [|reflexivity].
        destruct (inv_key _ _ Hinv1 _ _ E) as [_ Hne]. congruence.
      + rewrite Hstore. apply fn_lookup_insert_ne. exact Hbc.
      + intros b' [= <-]. split; [|split; assumption].
        unfold GetInfo. rewrite Hstore, fn_lookup_insert. reflexivity.
    - destruct Hrest as (Hstore & Hconn & _).
      split; [exact Hconn|]. split; [rewrite Hstore; reflexivity|].
      intros b' [=]. }
  destruct Hfinal as (Hconn & Hstorec & Hbefore).
  exists w'. split; [exact Hlogin|]. rewrite Hconn.
  split.
  { destruct (connectionsByDeviceID (connections w) !! d) as [b|] eqn:Hb.
    - apply (Hbefore b eq_refl).
    - destruct Hrest as (Hstore & _). rewrite Hstore. exact Hinv1. }
  split; [unfold GetInfo; rewrite Hstorec, Hh1c; reflexivity|].
  split; [apply HbyID; split; [exact Hc | exact HcD]|].
  split; [unfold GetDeviceConnection; rewrite HbyDevice; apply lookup_insert_eq|].
  intros b Hb. destruct (Hbefore b Hb) as (? & ? & _). split; assumption.
Qed.

(** X8. The read loop meets the peer's close frame on a registered
    session, on a registry that satisfies the invariant: the loop
    returns, the session is in none of the mappings and closed, the
    invariant holds, and the socket has been sent one close frame and
    closed. *)
Theorem close_frame_RegInv parse get sub w c t mt m rest :
  RegInv (store w) (connections w) ->
  connectionsByID (connections w) !! id (store w c) = Some c ->
  exists w',
    handleInputMessages parse get sub w c (mkRead t true mt m true :: rest)
    = Done (w', true)
    /\ RegInv (store w') (connections w')
    /\ unknown (connections w') c
    /\ GetInfo (store w') c = (-1, "", "")
    /\ wire w'
       = (wire w
            ++ [WriteMessage c CloseMessage
                  (FormatCloseMessage CloseNormalClosure "ServerError");
                WsClose c])%list.
Proof.
  intros Hinv Hc. cbn [handleInputMessages closeFrame readErr].
  rewrite onClose_after_Close.
  destruct (inv_key _ _ Hinv _ _ Hc) as [_ Hopen].
  assert (Hon : closeHandler w c = unregisterConnection w c).
  { unfold closeHandler, onClose, GetInfo.
    destruct (Z.eqb_spec (id (store w c)) (-1)); [contradiction | reflexivity]. }
  rewrite Hon.
  pose proof (RegInv_remove (store w) (connections w) c Hinv (or_introl Hc))
    as Hinv1.
  assert (Hunknown : unknown (removeConnection (store w) (connections w) c) c).
  { apply (RegInv_unknown (store w) _ c Hinv1).
    rewrite removeConnection_byID, lookup_delete_eq. discriminate. }
  eexists. split; [reflexivity|].
  unfold Close, unregisterConnection, RemoveConnection.
  cbn [store connections with_store with_connections emit wire].
  split; [apply RegInv_store; assumption|].
  split; [exact Hunknown|].
  split; [unfold GetInfo; rewrite fn_lookup_insert; reflexivity|].
  rewrite <- app_assoc. reflexivity.
Qed.

(** X9. [registerConnection], on a registry that satisfies the
    invariant, when the next id is not -1 and is the id of no
    connection, and the next cell of the store is not in the registry:
    the invariant holds afterwards, and the new connection is open,
    without identity, registered under the new id and nowhere else. *)
Theorem registerConnection_RegInv now w :
  RegInv (store w) (connections w) ->
  wrap64 (lastConnectionNumber w + 1) <> -1 ->
  (forall x, id (store w x) <> wrap64 (lastConnectionNumber w + 1)) ->
  unknown (connections w) (allocated w) ->
  let w' := (registerConnection now w).1 in
  (registerConnection now w).2 = allocated w
  /\ RegInv (store w') (connections w')
  /\ newcomer w' (allocated w)
  /\ GetInfo (store w') (allocated w)
     = (wrap64 (lastConnectionNumber w + 1), "", "").
Proof.
  intros Hinv Hopen Hfresh Hunknown w'. subst w'.
  unfold registerConnection, getNewConnectionID.
  cbn [fst snd store connections with_connections allocated config
       lastConnectionNumber].
  set (newID := wrap64 (lastConnectionNumber w + 1)) in *.
  set (h' := <[allocated w := NewConnection now newID]> (store w)).
  assert (Hh'c : h' (allocated w) = NewConnection now newID)
    by apply fn_lookup_insert.
  assert (Hh' : forall x, x <> allocated w -> h' x = store w x)
    by (intros x Hx; apply fn_lookup_insert_ne; congruence).
  pose proof (RegInv_store (store w) (connections w) (allocated w)
                (NewConnection now newID) Hinv Hunknown) as Hinv1.
  fold h' in Hinv1.
  assert (Hfree : connectionsByID (connections w) !! id (h' (allocated w))
                  = None).
  { rewrite Hh'c. cbn [NewConnection id].
    destruct (connectionsByID (connections w) !! newID) as [x|] eqn:E;
      [|reflexivity].
    destruct (inv_key _ _ Hinv _ _ E) as [Hx _]. destruct (Hfresh x Hx). }
  assert (Hinv2 : RegInv h' (AddNewConnection h' (connections w) (allocated w))).
  { apply RegInv_add; [exact Hinv1 | exact Hfree | |];
      rewrite Hh'c; [exact Hopen | reflexivity]. }
  split; [reflexivity|]. split; [exact Hinv2|].
  split; [|unfold GetInfo; rewrite Hh'c; reflexivity].
  destruct Hunknown as (HnID & HnU & HnD).
  split; cbn [store connections with_connections].
  - rewrite Hh'c. exact Hopen.
  - rewrite Hh'c. reflexivity.
  - intros k. cbn [AddNewConnection connectionsByID]. rewrite Hh'c.
    cbn [NewConnection id]. rewrite lookup_insert_Some. split.
    + intros [[<- _] | [_ H]]; [reflexivity|]. destruct HnID. eexists; exact H.
    + intros ->. left. split; reflexivity.
  - exact HnU.
  - exact HnD.
  - intros c' Hc'. rewrite Hh'c, (Hh' c' Hc'). apply Hfresh.
Qed.

(** ** More of the dispatcher *)

(** X10. A logged-in session asks for a configured topic, the pool
    leases a client and the client takes the subscription: the lease and
    the subscription of this session to this topic are all that happens;
    no frame is written, the registry and the sessions are as before. *)
Theorem subscribe_succeeds parse get sub w c name busClient :
  IsLoggedIn (store w) c = true ->
  contains (NatsTopics (config w)) name = true ->
  get (leased w) = Some busClient ->
  sub busClient name = false ->
  exists w',
    onTextMessage parse get sub w c (TopicPrefix ++ name) = Done w'
    /\ wire w'
       = (wire w ++ [PoolGet (leased w); Subscribe busClient name c])%list
    /\ leased w' = S (leased w)
    /\ store w' = store w
    /\ connections w' = connections w.
Proof.
  intros Hin Htopic Hget Hsub.
  unfold onTextMessage, TopicPrefix, LoginPrefix. simpl.
  change ("" +:+ name) with name. rewrite prefix_empty, Hin. simpl.
  unfold setupSubsrciber. rewrite Htopic, Hget, Hsub. simpl.
  eexists. split; [reflexivity|]. simpl. rewrite <- app_assoc. repeat split.
Qed.

Lemma subscribe_succeeds_witness :
  exists w',
    onTextMessage Fixture.parse Fixture.pool Fixture.busUp Fixture.aliceIn
      0%nat "topic>:test.a" = Done w'
    /\ wire w'
       = (wire Fixture.aliceIn
            ++ [PoolGet 0; Subscribe 0 "test.a" 0])%list
    /\ leased w' = 1%nat
    /\ store w' = store Fixture.aliceIn
    /\ connections w' = connections Fixture.aliceIn.
Proof.
  apply (subscribe_succeeds Fixture.parse Fixture.pool Fixture.busUp
           Fixture.aliceIn 0%nat "test.a" 0%nat); reflexivity.
Defined.

Lemma topic_refused parse get sub w c name :
  IsLoggedIn (store w) c = false ->
  onTextMessage parse get sub w c (TopicPrefix ++ name)
  = Done (SendText w c "go away").
Proof.
  intros Hin. unfold onTextMessage, TopicPrefix, LoginPrefix. simpl.
  change ("" +:+ name) with name. rewrite prefix_empty, Hin. reflexivity.
Qed.

(** X11. A session that is not logged in and sends a topic frame gets
    the one frame [go away], whether or not the topic is configured;
    the pool is not asked, the registry and the sessions are as
    before. *)
Theorem topic_before_login parse get sub w c name :
  IsLoggedIn (store w) c = false ->
  exists w',
    onTextMessage parse get sub w c (TopicPrefix ++ name) = Done w'
    /\ wire w' = (wire w ++ [WriteMessage c TextMessage (Bytes "go away")])%list
    /\ leased w' = leased w
    /\ store w' = store w
    /\ connections w' = connections w.
Proof.
  intros Hin. rewrite topic_refused by exact Hin.
  eexists. repeat split.
Qed.

Lemma topic_before_login_witness :
  (exists w',
     onTextMessage Fixture.parse Fixture.pool Fixture.busUp Fixture.one 0%nat
       "topic>:test.a" = Done w'
     /\ wire w'
        = (wire Fixture.one
             ++ [WriteMessage 0 TextMessage (Bytes "go away")])%list
     /\ leased w' = leased Fixture.one
     /\ store w' = store Fixture.one
     /\ connections w' = connections Fixture.one)
  /\ (exists w',
        onTextMessage Fixture.parse Fixture.pool Fixture.busUp Fixture.one
          0%nat "topic>:paco.is.smart" = Done w'
        /\ wire w'
           = (wire Fixture.one
                ++ [WriteMessage 0 TextMessage (Bytes "go away")])%list
        /\ leased w' = leased Fixture.one
        /\ store w' = store Fixture.one
        /\ connections w' = connections Fixture.one).
Proof.
  split.
  - apply (topic_before_login Fixture.parse Fixture.pool Fixture.busUp
             Fixture.one 0%nat "test.a"). reflexivity.
  - apply (topic_before_login Fixture.parse Fixture.pool Fixture.busUp
             Fixture.one 0%nat "paco.is.smart"). reflexivity.
Defined.

(** X12. A text frame that is not a login frame never changes the
    registry or the fields of a session, however it ends: answered,
    ignored, or with the process stopped by a failed subscription. *)
Theorem only_login_changes_registry parse get sub w c message :
  String.prefix LoginPrefix message = false ->
  store (stateOf (onTextMessage parse get sub w c message)) = store w
  /\ connections (stateOf (onTextMessage parse get sub w c message))
     = connections w.
Proof.
  intros Hlogin. unfold onTextMessage. rewrite Hlogin.
  destruct (String.eqb message "ping"); [split; reflexivity|].
  destruct (String.prefix TopicPrefix message); [|split; reflexivity].
  destruct (negb (IsLoggedIn (store w) c)); [split; reflexivity|].
  unfold setupSubsrciber.
  destruct (negb (contains _ _)); [split; reflexivity|].
  destruct (get (leased w)) as [busClient|]; [|split; reflexivity].
  destruct (sub busClient _); split; reflexivity.
Qed.

Lemma only_login_changes_registry_witness :
  store (stateOf (onTextMessage Fixture.parse Fixture.dryPool Fixture.busUp
                    Fixture.aliceIn 0%nat "topic>:test.a"))
  = store Fixture.aliceIn
  /\ connections
       (stateOf (onTextMessage Fixture.parse Fixture.dryPool Fixture.busUp
                   Fixture.aliceIn 0%nat "topic>:test.a"))
     = connections Fixture.aliceIn.
Proof.
  apply (only_login_changes_registry Fixture.parse Fixture.dryPool
           Fixture.busUp Fixture.aliceIn 0%nat "topic>:test.a").
  reflexivity.
Defined.

(** X13. A token that passes the checks and whose user claim is the
    empty string: the session is answered [ok], yet it is not logged
    in, [OnLogin] has done nothing to the registry, and a topic frame is
    still answered [go away]. *)
Theorem login_with_empty_user parse get sub w c tokenBinary name :
  authenticates parse w tokenBinary "" ->
  userID (store w c) = "" ->
  exists w',
    login parse w c tokenBinary = Done w'
    /\ wire w'
       = (wire w ++ [SetReadLimit c 0;
                     WriteMessage c TextMessage (Bytes "ok")])%list
    /\ connections w' = connections w
    /\ IsLoggedIn (store w') c = false
    /\ onTextMessage parse get sub w' c (TopicPrefix ++ name)
       = Done (SendText w' c "go away").
Proof.
  intros Hauth Hu.
  destruct (login_unbound parse w c tokenBinary "" Hauth Hu)
    as (w' & Hlogin & _ & Hrest).
  set (h1 := <[c := loggedIn (store w c) "" (RemoteAddr (config w))]> (store w))
    in *.
  assert (Hon : OnLogin h1 (connections w) c = (connections w, None)).
  { unfold OnLogin, GetInfo. unfold h1. rewrite fn_lookup_insert. reflexivity. }
  rewrite Hon in Hrest. cbn [fst snd] in Hrest.
  destruct Hrest as (Hstore & Hconn & Hwire).
  assert (Hin : IsLoggedIn (store w') c = false).
  { unfold IsLoggedIn. rewrite Hstore. unfold h1. rewrite fn_lookup_insert.
    reflexivity. }
  exists w'. split; [exact Hlogin|]. split; [exact Hwire|].
  split; [exact Hconn|]. split; [exact Hin|].
  apply topic_refused, Hin.
Qed.

Lemma login_with_empty_user_witness :
  exists w',
    login Probe.blankUser Fixture.one 0%nat "Bearer t" = Done w'
    /\ wire w'
       = (wire Fixture.one
            ++ [SetReadLimit 0 0;
                WriteMessage 0 TextMessage (Bytes "ok")])%list
    /\ connections w' = connections Fixture.one
    /\ IsLoggedIn (store w') 0 = false
    /\ onTextMessage Probe.blankUser Fixture.pool Fixture.busUp w' 0%nat
         "topic>:test.a"
       = Done (SendText w' 0%nat "go away").
Proof.
  apply (login_with_empty_user Probe.blankUser Fixture.pool Fixture.busUp
           Fixture.one 0%nat "Bearer t" "test.a").
  - exists "t". repeat split.
  - reflexivity.
Defined.

(** X14. A login frame whose token [ResolveIDToken] refuses, or whose
    token the parser refuses, is answered with the one frame
    [login>:Not Authorized]; the session is not closed, and the registry
    and the fields of the sessions are as before, so that a later login
    on the same session meets the state it would have met first. *)
Theorem failed_login_changes_nothing parse get sub w c tokenBinary :
  (ResolveIDToken tokenBinary).2 = false
  \/ err (parse (JWKS (config w)) (ResolveIDToken tokenBinary).1) = true
  \/ Valid (parse (JWKS (config w)) (ResolveIDToken tokenBinary).1) = false ->
  exists w',
    onTextMessage parse get sub w c (LoginPrefix ++ tokenBinary) = Done w'
    /\ framesTo c (wire w')
       = (framesTo c (wire w)
            ++ [(TextMessage, Bytes "login>:Not Authorized")])%list
    /\ socketClosed c (wire w') = socketClosed c (wire w)
    /\ store w' = store w
    /\ connections w' = connections w
    /\ config w' = config w.
Proof.
  intros H. unfold onTextMessage, LoginPrefix. simpl.
  change ("" +:+ tokenBinary) with tokenBinary. rewrite prefix_empty.
  unfold login. destruct (ResolveIDToken tokenBinary) as [idtoken valid].
  cbn [fst snd] in H. unfold ParseJWT. cbn [pkgJWKS config].
  assert (Hframes : forall w0 : NatsWebSocket,
            framesTo c (wire w0 ++ [WriteMessage c TextMessage
                                      (Bytes "login>:Not Authorized")])
            = (framesTo c (wire w0)
                 ++ [(TextMessage, Bytes "login>:Not Authorized")])%list).
  { intros w0. unfold framesTo. rewrite omap_app. cbn.
    rewrite decide_True by reflexivity. reflexivity. }
  assert (Hclosed : forall w0 : NatsWebSocket,
            socketClosed c (wire w0 ++ [WriteMessage c TextMessage
                                          (Bytes "login>:Not Authorized")])
            = socketClosed c (wire w0)).
  { intros w0. unfold socketClosed. rewrite existsb_app. cbn.
    rewrite !orb_false_r. reflexivity. }
  destruct valid; cbn [negb].
  - destruct H as [H | [H | H]]; [discriminate | |]; rewrite H;
      [|rewrite orb_true_r]; cbn [orb negb]; eexists;
      (split; [reflexivity|]); cbn [SendText emit wire store connections config];
      rewrite Hframes, Hclosed; repeat split.
  - eexists. split; [reflexivity|].
    cbn [SendText emit wire store connections config].
    rewrite Hframes, Hclosed. repeat split.
Qed.

Lemma failed_login_changes_nothing_witness :
  exists w',
    onTextMessage Fixture.parse Fixture.pool Fixture.busUp Fixture.one 0%nat
      "login>:Bearer abcde" = Done w'
    /\ framesTo 0 (wire w')
       = (framesTo 0 (wire Fixture.one)
            ++ [(TextMessage, Bytes "login>:Not Authorized")])%list
    /\ socketClosed 0 (wire w') = socketClosed 0 (wire Fixture.one)
    /\ store w' = store Fixture.one
    /\ connections w' = connections Fixture.one
    /\ config w' = config Fixture.one.
Proof.
  apply (failed_login_changes_nothing Fixture.parse Fixture.pool Fixture.busUp
           Fixture.one 0%nat "Bearer abcde").
  right. left. reflexivity.
Defined.

(** ** The reaper *)

Section Reaper.

Variable now : Z.

(** The two functions that [cleanConnectionsIfNeed] hands to
    [RemoveIf]. *)
Let tooOld (w : NatsWebSocket) (con : nat) : bool :=
  wrap64 (now - GetStartTime (store w) con) >? UnLoggedConnectionTimeout.
Let closeAuth (w : NatsWebSocket) (con : nat) : NatsWebSocket :=
  Close w con ClosePolicyViolation "Auth".

Lemma sweep_step w k y :
  let w1 := RemoveIf_body tooOld closeAuth w (k, y) in
  (forall x, startTime (store w1 x) = startTime (store w x))
  /\ connectionsByID (connections w1)
     = (if tooOld w y then delete k (connectionsByID (connections w))
        else connectionsByID (connections w))
  /\ store w1
     = (if tooOld w y then <[y := closed (store w y)]> (store w)
        else store w).
Proof.
  unfold RemoveIf_body. destruct (tooOld w y) eqn:E; cbn.
  - split; [|split; reflexivity].
    intros x. destruct (decide (y = x)) as [->|Hx].
    + rewrite fn_lookup_insert. reflexivity.
    + rewrite fn_lookup_insert_ne by exact Hx. reflexivity.
  - repeat split.
Qed.

Lemma tooOld_ext w w' x :
  startTime (store w' x) = startTime (store w x) -> tooOld w' x = tooOld w x.
Proof. intros H. unfold tooOld, GetStartTime. rewrite H. reflexivity. Qed.

Lemma sweep_fold (l : list (Z * nat)) w :
  let w' := foldl (RemoveIf_body tooOld closeAuth) w l in
  (forall x, startTime (store w' x) = startTime (store w x))
  /\ (forall k x,
        connectionsByID (connections w') !! k = Some x <->
        connectionsByID (connections w) !! k = Some x
        /\ ~ (exists y, (k, y) ∈ l /\ tooOld w y = true))
  /\ (forall x, tooOld w x = false -> store w' x = store w x)
  /\ (forall x,
        GetInfo (store w) x = (-1, "", "")
        \/ ((exists k, (k, x) ∈ l) /\ tooOld w x = true) ->
        GetInfo (store w') x = (-1, "", "")).
Proof.
  revert w. induction l as [|[k0 y0] l IH]; intros w; cbn [foldl].
  - split; [reflexivity|]. split; [|split].
    + intros k x. split; [|tauto]. intros H. split; [exact H|].
      intros (y & Hy & _). inversion Hy.
    + reflexivity.
    + intros x [H | [[k Hk] _]]; [exact H | inversion Hk].
  - destruct (sweep_step w k0 y0) as (Hst1 & HbyID1 & Hstore1).
    set (w1 := RemoveIf_body tooOld closeAuth w (k0, y0)) in *.
    destruct (IH w1) as (Hst & HbyID & Hstore & Hclosed).
    assert (Hold : forall x, tooOld w1 x = tooOld w x)
      by (intros x; apply tooOld_ext, Hst1).
    split; [intros x; rewrite Hst; apply Hst1|]. split; [|split].
    + intros k x. rewrite HbyID, HbyID1.
      setoid_rewrite Hold. setoid_rewrite elem_of_cons.
      destruct (tooOld w y0) eqn:E.
      * rewrite lookup_delete_Some. split.
        -- intros [[Hk H] Hn]. split; [exact H|].
           intros (y & [[= <- <-] | Hy] & Hy'); [congruence|].
           apply Hn. eauto.
        -- intros [H Hn]. split; [split; [|exact H]|].
           ++ intros <-. apply Hn. exists y0. split; [left; reflexivity | exact E].
           ++ intros (y & Hy & Hy'). apply Hn. eauto.
      * split.
        -- intros [H Hn]. split; [exact H|].
           intros (y & [[= <- <-] | Hy] & Hy'); [congruence|].
           apply Hn. eauto.
        -- intros [H Hn]. split; [exact H|].
           intros (y & Hy & Hy'). apply Hn. eauto.
    + intros x Hx. rewrite Hstore by (rewrite Hold; exact Hx).
      rewrite Hstore1. destruct (tooOld w y0) eqn:E; [|reflexivity].
      apply fn_lookup_insert_ne. intros <-. congruence.
    + intros x Hx. apply Hclosed.
      assert (Hkeep : GetInfo (store w) x = (-1, "", "") ->
                      GetInfo (store w1) x = (-1, "", "")).
      { unfold GetInfo. rewrite Hstore1. intros H.
        destruct (tooOld w y0); [|exact H].
        destruct (decide (y0 = x)) as [->|Hne].
        - rewrite fn_lookup_insert. reflexivity.
        - rewrite fn_lookup_insert_ne by exact Hne. exact H. }
      destruct Hx as [H | [[k Hk] Hx]]; [left; apply Hkeep, H|].
      apply elem_of_cons in Hk as [[= -> ->] | Hk].
      * left. unfold GetInfo. rewrite Hstore1, Hx, fn_lookup_insert.
        reflexivity.
      * right. split; [eauto | rewrite Hold; exact Hx].
Qed.

(** X15. When more than [MaxUnLoggedConnectionCount] sessions count as
    not logged in, the sweep leaves in the by-id mapping exactly the
    sessions whose age is at most [UnLoggedConnectionTimeout] seconds,
    whatever their identity; it leaves the fields of those sessions as
    they were and has closed every session it has removed. *)
Theorem reaper_sweeps_by_age w :
  MaxUnLoggedConnectionCount
    < NumberOfNotLoggedConnections (GetStats (connections w)) ->
  let w' := cleanConnectionsIfNeed now w in
  forall k x,
    connectionsByID (connections w) !! k = Some x ->
    if wrap64 (now - startTime (store w x)) >? UnLoggedConnectionTimeout
    then connectionsByID (connections w') !! k = None
         /\ GetInfo (store w') x = (-1, "", "")
    else connectionsByID (connections w') !! k = Some x
         /\ store w' x = store w x.
Proof.
  intros Hcount w' k x Hk. subst w'. unfold cleanConnectionsIfNeed.
  apply Z.gtb_lt in Hcount. rewrite Hcount. unfold RemoveIf.
  destruct (sweep_fold (map_to_list (connectionsByID (connections w))) w)
    as (_ & HbyID & Hstore & Hclosed).
  fold tooOld closeAuth.
  change (wrap64 (now - startTime (store w x)) >? UnLoggedConnectionTimeout)
    with (tooOld w x).
  destruct (tooOld w x) eqn:E.
  - split.
    + apply eq_None_not_Some. intros [x' E'].
      apply HbyID in E' as [E' Hn]. destruct Hn. exists x. split; [|exact E].
      apply elem_of_map_to_list. exact Hk.
    + apply Hclosed. right. split; [|exact E]. exists k.
      apply elem_of_map_to_list. exact Hk.
  - split; [|apply Hstore, E].
    apply HbyID. split; [exact Hk|]. intros (y & Hy & Hy').
    apply elem_of_map_to_list in Hy. congruence.
Qed.

End Reaper.

(** ** The properties above on the gateway of the examples *)

Lemma one_RegInv : RegInv (store Fixture.one) (connections Fixture.one).
Proof.
  change (connections Fixture.one)
    with (AddNewConnection (store Fixture.one) NewConnectionsStorage 0%nat).
  apply RegInv_add; [apply RegInv_new | reflexivity | discriminate | reflexivity].
Qed.

Lemma one_registered :
  connectionsByID (connections Fixture.one) !! id (store Fixture.one 0)
  = Some 0%nat.
Proof. reflexivity. Qed.

Lemma aliceIn_RegInv :
  RegInv (store Fixture.aliceIn) (connections Fixture.aliceIn).
Proof.
  change (store Fixture.aliceIn)
    with (<[0%nat := loggedIn (store Fixture.one 0) "alice" "10.0.0.1"]>
            (store Fixture.one)).
  change (connections Fixture.aliceIn)
    with (OnLogin (<[0%nat := loggedIn (store Fixture.one 0) "alice" "10.0.0.1"]>
                     (store Fixture.one))
            (connections Fixture.one) 0%nat).1.
  apply RegInv_login;
    [exact one_RegInv | exact one_registered | reflexivity | discriminate].
Qed.

Lemma registry_invariant_witness :
  RegInv (<[0%nat := loggedIn (store Fixture.one 0) "alice" "10.0.0.1"]>
            (store Fixture.one))
         (OnLogin (<[0%nat := loggedIn (store Fixture.one 0) "alice" "10.0.0.1"]>
                     (store Fixture.one))
            (AddNewConnection (store Fixture.one) NewConnectionsStorage 0%nat)
            0%nat).1.
Proof.
  apply registry_invariant. apply reach_login.
  - apply reach_add; [apply reach_new | reflexivity | discriminate | reflexivity].
  - reflexivity.
  - reflexivity.
  - discriminate.
Defined.

Lemma login_RegInv_witness :
  exists w',
    login Fixture.parse Fixture.one 0%nat "Bearer alice" = Done w'
    /\ RegInv (store w') (connections w')
    /\ GetInfo (store w') 0 = (1, "alice", "10.0.0.1")
    /\ GetDeviceConnection (connections w') "10.0.0.1" = Some 0%nat.
Proof.
  destruct (login_RegInv Fixture.parse Fixture.one 0%nat "Bearer alice" "alice"
              one_RegInv one_registered eq_refl (alice_authenticates _))
    as (w' & H1 & H2 & H3 & _ & H4 & _).
  - discriminate.
  - exists w'. split; [exact H1|]. split; [exact H2|].
    split; [exact H3 | exact H4].
Defined.

Lemma close_frame_RegInv_witness :
  exists w',
    handleInputMessages Fixture.parse Fixture.pool Fixture.busUp
      Fixture.aliceIn 0%nat [mkRead 5 true 0 "" true]
    = Done (w', true)
    /\ RegInv (store w') (connections w')
    /\ unknown (connections w') 0
    /\ GetInfo (store w') 0 = (-1, "", "").
Proof.
  destruct (close_frame_RegInv Fixture.parse Fixture.pool Fixture.busUp
              Fixture.aliceIn 0%nat 5 0 "" [] aliceIn_RegInv)
    as (w' & H1 & H2 & H3 & H4 & _).
  - reflexivity.
  - exists w'. split; [exact H1|]. split; [exact H2|].
    split; [exact H3 | exact H4].
Defined.

Lemma registerConnection_RegInv_witness :
  (registerConnection 7 (New Fixture.cfg)).2 = 0%nat
  /\ RegInv (store (registerConnection 7 (New Fixture.cfg)).1)
            (connections (registerConnection 7 (New Fixture.cfg)).1)
  /\ newcomer (registerConnection 7 (New Fixture.cfg)).1 0
  /\ GetInfo (store (registerConnection 7 (New Fixture.cfg)).1) 0
     = (1, "", "").
Proof.
  apply (registerConnection_RegInv 7 (New Fixture.cfg)).
  - apply RegInv_new.
  - discriminate.
  - intros x. discriminate.
  - repeat split.
    + intros [k H]. cbn in H. rewrite lookup_empty in H. discriminate.
    + intros (u & m & d & H & _). cbn in H. rewrite lookup_empty in H.
      discriminate.
    + intros [d H]. cbn in H. rewrite lookup_empty in H. discriminate.
Defined.

Lemma crowded_count :
  MaxUnLoggedConnectionCount
    < NumberOfNotLoggedConnections (GetStats (connections Fixture.crowded)).
Proof. vm_compute. reflexivity. Qed.

Lemma crowded_first :
  connectionsByID (connections Fixture.crowded) !! 1 = Some 0%nat.
Proof. vm_compute. reflexivity. Qed.

Lemma reaper_sweeps_by_age_witness :
  (if wrap64 (100 - startTime (store Fixture.crowded 0))
        >? UnLoggedConnectionTimeout
   then connectionsByID
          (connections (cleanConnectionsIfNeed 100 Fixture.crowded)) !! 1
        = None
        /\ GetInfo (store (cleanConnectionsIfNeed 100 Fixture.crowded)) 0
           = (-1, "", "")
   else connectionsByID
          (connections (cleanConnectionsIfNeed 100 Fixture.crowded)) !! 1
        = Some 0%nat
        /\ store (cleanConnectionsIfNeed 100 Fixture.crowded) 0
           = store Fixture.crowded 0)
  /\ (wrap64 (100 - startTime (store Fixture.crowded 0))
        >? UnLoggedConnectionTimeout) = true.
Proof.
  split.
  - exact (reaper_sweeps_by_age 100 Fixture.crowded crowded_count 1 0%nat
             crowded_first).
  - vm_compute. reflexivity.
Defined.

(** ** Removing a registered connection *)

(** X16. On a registry that satisfies the invariant, removing a
    registered connection takes it out of all three mappings, keeps the
    invariant, and takes one off the count exactly when the connection
    had no user. *)
Theorem remove_registered h s c :
  RegInv h s ->
  connectionsByID s !! id (h c) = Some c ->
  RegInv h (removeConnection h s c)
  /\ unknown (removeConnection h s c) c
  /\ numberOfNotLoggedConnections (removeConnection h s c)
     = (if String.eqb (userID (h c)) ""
        then wrap64 (numberOfNotLoggedConnections s - 1)
        else numberOfNotLoggedConnections s).
Proof.
  intros Hinv Hc.
  pose proof (RegInv_remove h s c Hinv (or_introl Hc)) as Hinv1.
  split; [exact Hinv1|]. split.
  - apply (RegInv_unknown h _ c Hinv1).
    rewrite removeConnection_byID, lookup_delete_eq. discriminate.
  - unfold removeConnection, GetInfo. rewrite Hc.
    destruct (String.eqb (userID (h c)) ""); reflexivity.
Qed.

Lemma remove_registered_witness :
  RegInv (store Fixture.aliceIn)
    (removeConnection (store Fixture.aliceIn) (connections Fixture.aliceIn)
       0%nat)
  /\ unknown
       (removeConnection (store Fixture.aliceIn) (connections Fixture.aliceIn)
          0%nat) 0
  /\ numberOfNotLoggedConnections
       (removeConnection (store Fixture.aliceIn) (connections Fixture.aliceIn)
          0%nat)
     = (if String.eqb (userID (store Fixture.aliceIn 0)) ""
        then wrap64 (numberOfNotLoggedConnections
                       (connections Fixture.aliceIn) - 1)
        else numberOfNotLoggedConnections (connections Fixture.aliceIn)).
Proof.
  apply (remove_registered (store Fixture.aliceIn)
           (connections Fixture.aliceIn) 0%nat aliceIn_RegInv).
  reflexivity.
Defined.

(** ** The read loop, piece by piece *)

(** X17. The read loop over two batches of reads is the loop over
    the first batch and, if it still waits for more, the loop over the
    second batch from the state reached; once the loop has returned, or
    the process has panicked or exited, further reads change nothing. *)
Theorem handleInputMessages_app parse get sub w c reads1 reads2 :
  handleInputMessages parse get sub w c (reads1 ++ reads2)%list
  = match handleInputMessages parse get sub w c reads1 with
    | Done (w1, false) => handleInputMessages parse get sub w1 c reads2
    | o => o
    end.
Proof.
  revert w. induction reads1 as [|r reads1 IH]; intros w.
  - reflexivity.
  - cbn [app handleInputMessages].
    destruct (readErr r); [reflexivity|].
    destruct (messageType r =? TextMessage)%Z.
    { destruct (onTextMessage parse get sub _ c (message r)) as [w1| |];
        cbn [bind]; [apply IH | reflexivity | reflexivity]. }
    destruct (messageType r =? BinaryMessage)%Z; [apply IH|].
    destruct (messageType r =? CloseMessage)%Z; [reflexivity | apply IH].
Qed.
